(** * ipcalc: IPv4 address and subnet arithmetic

    A shallow embedding of the Go package [ipcalc] (files [ipcalc.go] and
    [main.go]) and the properties of its specification.

    Go's [uint32] is modelled as [Z] with the wrap-around of every
    operation that can leave the range written out; the two-valued returns
    [(value, error)] are pairs whose second component is [None] for [nil]. *)

From Stdlib Require Import ZArith Zbitwise List String Ascii Bool Lia.
Import ListNotations.
Local Open Scope Z_scope.

(** ** 32-bit unsigned integers *)

Module U32.

Definition modulus : Z := 2 ^ 32.

Definition in_range (x : Z) : Prop := 0 <= x < modulus.

Definition wrap (x : Z) : Z := x mod modulus.

(** [a + b], [a - b] on [uint32]. *)
Definition add (a b : Z) : Z := wrap (a + b).
Definition sub (a b : Z) : Z := wrap (a - b).

(** [a << n] and [a >> n] on [uint32]; a shift count of 32 or more
    yields 0, as in Go. *)
Definition shl (a n : Z) : Z := wrap (Z.shiftl a n).
Definition shr (a n : Z) : Z := Z.shiftr a n.

(** [^a] on [uint32]: exclusive or with the all-ones word. *)
Definition not (a : Z) : Z := Z.lxor a (modulus - 1).

(** [uint8(a)]. *)
Definition to_uint8 (a : Z) : Z := a mod 256.

End U32.

(** [TwoFiveFive = 255.255.255.255] *)
Definition TwoFiveFive : Z := 4294967295.

(** Go's [error] values are built from their message with [errors.New]. *)
Definition error : Type := string.

(** ** The Host/Mask variant: derived addresses by arithmetic *)

Module HostMask.

Record Ipv4 : Type := mkIpv4 { Host : Z; Mask : Z }.

(** [func (i *Ipv4) Network() uint32] *)
Definition Network (i : Ipv4) : Z :=
  U32.sub (U32.add (Mask i) (Host i)) (Z.lor (Mask i) (Host i)).

(** [func (i *Ipv4) Broadcast() uint32] *)
Definition Broadcast (i : Ipv4) : Z :=
  U32.add (U32.sub TwoFiveFive (Mask i)) (Network i).

(** [func IsInNet(n1 Ipv4, n2 Ipv4) bool] *)
Definition IsInNet (n1 n2 : Ipv4) : bool :=
  if (Host n1 >=? Host n2) && (Broadcast n1 <=? Broadcast n2)
  then true else false.

Definition setMask (i : Ipv4) (m : Z) : Ipv4 := mkIpv4 (Host i) m.

Definition Ipv4_eqb (a b : Ipv4) : bool :=
  (Host a =? Host b) && (Mask a =? Mask b).

(** The two loops of [Subnet], as in the Addr/Mask variant below. *)
Fixpoint candidateLoop (iters : nat) (bits : Z) (sharedBits : Z) (lo : Ipv4)
  : Ipv4 :=
  match iters with
  | O => lo
  | S iters' =>
      if U32.shr sharedBits bits =? 0
      then setMask lo (U32.sub TwoFiveFive (U32.sub (U32.shl 1 bits) 1))
      else candidateLoop iters' (bits + 1) sharedBits lo
  end.

Fixpoint alignLoop (fuel : nat) (lo : Ipv4) : option Ipv4 :=
  match fuel with
  | O => None
  | S fuel' =>
      if Network lo =? Host lo then Some lo
      else alignLoop fuel'
             (setMask lo (U32.add (U32.shl 1 31) (U32.shr (Mask lo) 1)))
  end.

(** [func Subnet(start uint32, stop uint32) ([]Ipv4, error)] *)
Fixpoint Subnet_fuel (loopFuel depth : nat) (start stop : Z)
  : option (list Ipv4 * option error) :=
  match depth with
  | O => None
  | S depth' =>
      if start =? stop then Some ([mkIpv4 start TwoFiveFive], None)
      else if start >? stop
      then Some ([], Some "Argument order is backwards"%string)
      else
        let lo := mkIpv4 start 0 in
        let sharedBits := Z.lxor start stop in
        let lo := candidateLoop 33 0 sharedBits lo in
        match alignLoop loopFuel lo with
        | None => None
        | Some lo =>
            let res := [lo] in
            if Broadcast lo =? stop then Some (res, None)
            else if Broadcast lo >? stop
            then Some (res, Some "Internal Error"%string)
            else
              match
                Subnet_fuel loopFuel depth' (U32.add (Broadcast lo) 1) stop
              with
              | None => None
              | Some (next, Some err) => Some (res, Some err)
              | Some (next, None) => Some (res ++ next, None)
              end
        end
  end.

(** [func Overlap(n1 Ipv4, n2 Ipv4) []Ipv4] *)
Definition orderPair (n1 n2 : Ipv4) : (Ipv4 * Ipv4) + list Ipv4 :=
  if Host n1 <? Host n2 then inl (n1, n2)
  else if Host n1 >? Host n2 then inl (n2, n1)
  else
    if Mask n1 >? Mask n2 then inl (n1, n2)
    else if Mask n1 <? Mask n2 then inl (n2, n1)
    else if Ipv4_eqb n1 n2 then inr [n1]
    else inl (mkIpv4 0 0, mkIpv4 0 0).

Definition Overlap_fuel (loopFuel depth : nat) (n1 n2 : Ipv4)
  : option (list Ipv4) :=
  match orderPair n1 n2 with
  | inr early => Some early
  | inl (lo, hi) =>
      let start := Host hi in
      let stop :=
        if Broadcast lo <? Broadcast hi then Broadcast lo else Broadcast hi in
      if (stop <? start) || (start >? Broadcast lo) then Some []
      else
        match Subnet_fuel loopFuel depth start stop with
        | None => None
        | Some (res, Some _) => Some []
        | Some (res, None) => Some res
        end
  end.

End HostMask.

(** ** The variant of [main.go]: network and broadcast cached in fields *)

Module Cached.

Record Ipv4 : Type :=
  mkIpv4 { Host : Z; Mask : Z; Network : Z; Broadcast : Z }.

(** [func (i *Ipv4) setNetwork()] *)
Definition setNetwork (i : Ipv4) : Ipv4 :=
  mkIpv4 (Host i) (Mask i)
         (U32.sub (U32.add (Mask i) (Host i)) (Z.lor (Mask i) (Host i)))
         (Broadcast i).

(** [func (i *Ipv4) setBroadcast()] *)
Definition setBroadcast (i : Ipv4) : Ipv4 :=
  mkIpv4 (Host i) (Mask i) (Network i)
         (U32.add (U32.sub TwoFiveFive (Mask i)) (Network i)).

End Cached.

(** ** The Addr/Mask variant: derived addresses by bit operations *)

Record Ipv4 : Type := mkIpv4 { Addr : Z; Mask : Z }.

Definition setMask (i : Ipv4) (m : Z) : Ipv4 := mkIpv4 (Addr i) m.

(** [func (i *Ipv4) Network() uint32] *)
Definition Network (i : Ipv4) : Z := Z.land (Mask i) (Addr i).

(** [func (i *Ipv4) Broadcast() uint32] *)
Definition Broadcast (i : Ipv4) : Z := Z.lor (U32.not (Mask i)) (Addr i).

(** [func (i *Ipv4) IsIn(n Ipv4) bool] *)
Definition IsIn (i n : Ipv4) : bool :=
  if (Addr i >=? Addr n) && (Mask i <=? Mask n) then true else false.

(** [func (i *Ipv4) IsContiguous() bool]: the loop over the bit index [n],
    with the flag [f], run for the [iters] indices that remain. *)
Fixpoint contiguousLoop (iters : nat) (n : Z) (f : bool) (mask : Z) : bool :=
  match iters with
  | O => true
  | S iters' =>
      let b := Z.land mask (U32.shl 1 n) in
      let f := if negb (b =? 0) then true else f in
      if f && (b =? 0) then false
      else contiguousLoop iters' (n + 1) f mask
  end.

Definition IsContiguous (i : Ipv4) : bool :=
  contiguousLoop 32 0 false (Mask i).

Definition Ipv4_eqb (a b : Ipv4) : bool :=
  (Addr a =? Addr b) && (Mask a =? Mask b).

(** *** Summarising a range: [Subnet] *)

(** The loop [for bits := uint(0); bits <= 32; bits++] that sets the
    candidate mask at the first [bits] with [sharedBits>>bits == 0]. *)
Fixpoint candidateLoop (iters : nat) (bits : Z) (sharedBits : Z) (lo : Ipv4)
  : Ipv4 :=
  match iters with
  | O => lo
  | S iters' =>
      if U32.shr sharedBits bits =? 0
      then setMask lo (U32.sub TwoFiveFive (U32.sub (U32.shl 1 bits) 1))
      else candidateLoop iters' (bits + 1) sharedBits lo
  end.

(** One update of the alignment loop: [uint32(1)<<31 + lo.Mask>>1]. *)
Definition nextMask (m : Z) : Z := U32.add (U32.shl 1 31) (U32.shr m 1).

(** The unbounded loop [for { if lo.Network() == lo.Addr { break } ... }];
    [fuel] bounds the number of times its test is evaluated, and [None]
    means the bound was reached. *)
Fixpoint alignLoop (fuel : nat) (lo : Ipv4) : option Ipv4 :=
  match fuel with
  | O => None
  | S fuel' =>
      if Network lo =? Addr lo then Some lo
      else alignLoop fuel' (setMask lo (nextMask (Mask lo)))
  end.

(** [func Subnet(start uint32, stop uint32) ([]Ipv4, error)].
    [depth] bounds the nesting of the self-recursion and [loopFuel] the
    alignment loop of each call; [None] means one of the bounds was hit. *)
Fixpoint Subnet_fuel (loopFuel depth : nat) (start stop : Z)
  : option (list Ipv4 * option error) :=
  match depth with
  | O => None
  | S depth' =>
      if start =? stop then Some ([mkIpv4 start TwoFiveFive], None)
      else if start >? stop
      then Some ([], Some "Argument order is backwards"%string)
      else
        let lo := mkIpv4 start 0 in
        let sharedBits := Z.lxor start stop in
        let lo := candidateLoop 33 0 sharedBits lo in
        match alignLoop loopFuel lo with
        | None => None
        | Some lo =>
            let res := [lo] in
            if Broadcast lo =? stop then Some (res, None)
            else if Broadcast lo >? stop
            then Some (res, Some "Internal Error"%string)
            else
              match Subnet_fuel loopFuel depth' (U32.add (Broadcast lo) 1) stop with
              | None => None
              | Some (next, Some err) => Some (res, Some err)
              | Some (next, None) => Some (res ++ next, None)
              end
        end
  end.

(** The bounds that are shown below to be enough for every input. *)
Definition Subnet (start stop : Z) : option (list Ipv4 * option error) :=
  Subnet_fuel 33 33 start stop.

(** [func Overlap(n1 Ipv4, n2 Ipv4) []Ipv4], over a run of [Subnet].
    [orderPair] is the [switch] that fills [lo] and [hi], or returns early
    with [n1] alone. *)
Definition orderPair (n1 n2 : Ipv4) : (Ipv4 * Ipv4) + list Ipv4 :=
  if Addr n1 <? Addr n2 then inl (n1, n2)
  else if Addr n1 >? Addr n2 then inl (n2, n1)
  else
    if Mask n1 >? Mask n2 then inl (n1, n2)
    else if Mask n1 <? Mask n2 then inl (n2, n1)
    else if Ipv4_eqb n1 n2 then inr [n1]
    else inl (mkIpv4 0 0, mkIpv4 0 0).

Definition Overlap_fuel (loopFuel depth : nat) (n1 n2 : Ipv4)
  : option (list Ipv4) :=
  match orderPair n1 n2 with
  | inr early => Some early
  | inl (lo, hi) =>
      let start := Addr hi in
      let stop :=
        if Broadcast lo <? Broadcast hi then Broadcast lo else Broadcast hi in
      if (stop <? start) || (start >? Broadcast lo) then Some []
      else
        match Subnet_fuel loopFuel depth start stop with
        | None => None
        | Some (res, Some _) => Some []
        | Some (res, None) => Some res
        end
  end.

Definition Overlap (n1 n2 : Ipv4) : option (list Ipv4) :=
  Overlap_fuel 33 33 n1 n2.

(** ** Text conversion *)

(** The functions of Go's standard library that the package calls.
    [strings.Split] is only ever called with a one-byte separator. *)
Fixpoint Split (s : string) (sep : ascii) : list string :=
  match s with
  | EmptyString => [EmptyString]
  | String c s' =>
      if Ascii.eqb c sep then EmptyString :: Split s' sep
      else match Split s' sep with
           | piece :: rest => String c piece :: rest
           | [] => [String c EmptyString]
           end
  end.

Definition digitValue (c : ascii) : option Z :=
  let n := Z.of_N (N_of_ascii c) in
  if (48 <=? n) && (n <=? 57) then Some (n - 48) else None.

Fixpoint parseDigits (s : string) (acc : Z) : option Z :=
  match s with
  | EmptyString => Some acc
  | String c s' =>
      match digitValue c with
      | Some d => parseDigits s' (10 * acc + d)
      | None => None
      end
  end.

(** [strconv.Atoi]: an optional sign, then one or more decimal digits,
    the value within the 64-bit [int]. *)
Definition Atoi (s : string) : option Z :=
  let '(neg, ds) :=
    match s with
    | String "-"%char r => (true, r)
    | String "+"%char r => (false, r)
    | _ => (false, s)
    end in
  match ds with
  | EmptyString => None
  | _ =>
      match parseDigits ds 0 with
      | Some n =>
          let v := if neg then - n else n in
          if (- 2 ^ 63 <=? v) && (v <=? 2 ^ 63 - 1) then Some v else None
      | None => None
      end
  end.

Fixpoint digitsOf (fuel : nat) (n : Z) (acc : string) : string :=
  match fuel with
  | O => acc
  | S fuel' =>
      let acc' := String (ascii_of_N (Z.to_N (48 + n mod 10))) acc in
      if n / 10 =? 0 then acc' else digitsOf fuel' (n / 10) acc'
  end.

(** [strconv.Itoa], for the 64-bit [int] (at most 19 digits). *)
Definition Itoa (n : Z) : string :=
  if n <? 0 then String "-"%char (digitsOf 19 (- n) EmptyString)
  else digitsOf 19 n EmptyString.

(** [func addrToString(a uint32) string] *)
Definition addrToString (a : Z) : string :=
  let w0 := Itoa (U32.to_uint8 (U32.shr a 24)) in
  let w1 := Itoa (U32.to_uint8 (U32.shr a 16)) in
  let w2 := Itoa (U32.to_uint8 (U32.shr a 8)) in
  let w3 := Itoa (U32.to_uint8 a) in
  (w0 ++ "." ++ w1 ++ "." ++ w2 ++ "." ++ w3)%string.

(** [func maskToString(m uint32) string]: the loop [for i := 0; i < 32; i++]. *)
Fixpoint maskToStringLoop (iters : nat) (i : Z) (m : Z) : string :=
  match iters with
  | O => "0"%string
  | S iters' =>
      if m =? TwoFiveFive then Itoa (32 - i)
      else maskToStringLoop iters' (i + 1) (nextMask m)
  end.

Definition maskToString (m : Z) : string := maskToStringLoop 32 0 m.

(** [func (i *Ipv4) ToCidr() (string, error)] *)
Definition ToCidr (i : Ipv4) : string * option error :=
  let h := addrToString (Addr i) in
  if negb (IsContiguous i)
  then (h, Some "Cannot represent discontiguous subnet mask in CIDR notation"%string)
  else
    let m := maskToString (Mask i) in
    ((h ++ "/" ++ m)%string, None).

(** The loop of [DottedDecimalToUint32] over the octets: the bytes [b],
    or [None] at the first octet that is refused. *)
Fixpoint parseOctets (octets : list string) : option (list Z) :=
  match octets with
  | [] => Some []
  | v :: rest =>
      match Atoi v with
      | None => None
      | Some n =>
          if (n <? 0) || (n >? 255) then None
          else match parseOctets rest with
               | Some bs => Some (U32.to_uint8 n :: bs)
               | None => None
               end
      end
  end.

(** [func DottedDecimalToUint32(s string) (uint32, error)] *)
Definition DottedDecimalToUint32 (s : string) : Z * option error :=
  let octets := Split s "."%char in
  if negb (Nat.eqb (List.length octets) 4)
  then (0, Some "Dotted decimal string for a 32-bit number must contain 3 dots"%string)
  else
    match parseOctets octets with
    | Some [b0; b1; b2; b3] =>
        (Z.lor (Z.lor (Z.lor (U32.shl b0 24) (U32.shl b1 16)) (U32.shl b2 8)) b3,
         None)
    | _ => (0, Some "Dotted decimal string contains non-numbers"%string)
    end.

(** [func stringToMask(s string) (uint32, error)] *)
Definition stringToMask (s : string) : Z * option error :=
  match Atoi s with
  | None => (0, Some "Invalid CIDR prefix"%string)
  | Some n =>
      if (n <? 0) || (n >? 32) then (0, Some "Invalid CIDR prefix"%string)
      else
        let b := U32.to_uint8 n in
        (U32.sub TwoFiveFive (U32.sub (U32.shl 1 (U32.to_uint8 (32 - b))) 1),
         None)
  end.

(** [func CidrToIpv4(c string) (Ipv4, error)] *)
Definition CidrToIpv4 (c : string) : Ipv4 * option error :=
  let res := mkIpv4 0 0 in
  let cidrArr := Split c "/"%char in
  match DottedDecimalToUint32 (List.nth 0 cidrArr EmptyString) with
  | (_, Some _) => (res, Some "Failed to convert CIDR string to bits"%string)
  | (h, None) =>
      let res := mkIpv4 h (Mask res) in
      if Nat.eqb (List.length cidrArr) 2 then
        match stringToMask (List.nth 1 cidrArr EmptyString) with
        | (_, Some _) =>
            (res, Some "Failed to convert CIDR string to bits"%string)
        | (m, None) => (setMask res m, None)
        end
      else (setMask res TwoFiveFive, None)
  end.

(** [func AddrAndMaskToIpv4(s string) (Ipv4, error)] *)
Definition AddrAndMaskToIpv4 (s : string) : Ipv4 * option error :=
  let arr := Split s " "%char in
  if negb (Nat.eqb (List.length arr) 2)
  then (mkIpv4 0 0,
        Some "Address and Mask must be separated with a space"%string)
  else
    match DottedDecimalToUint32 (List.nth 0 arr EmptyString) with
    | (_, Some err) => (mkIpv4 0 0, Some err)
    | (a, None) =>
        match DottedDecimalToUint32 (List.nth 1 arr EmptyString) with
        | (_, Some err) => (mkIpv4 0 0, Some err)
        | (m, None) => (mkIpv4 a m, None)
        end
    end.

(** *** Text conversion of the Host/Mask variant *)

Module HostMaskText.

(** [func hostToString(n uint32) string] *)
Definition hostToString (n : Z) : string :=
  let w0 := Itoa (U32.to_uint8 (U32.shr n 24)) in
  let w1 := Itoa (U32.to_uint8 (U32.shr n 16)) in
  let w2 := Itoa (U32.to_uint8 (U32.shr n 8)) in
  let w3 := Itoa (U32.to_uint8 n) in
  (w0 ++ "." ++ w1 ++ "." ++ w2 ++ "." ++ w3)%string.

(** [func maskToString(m uint32) string]: here the loop is
    [for i := 0; i <= 32; i++], with the same body. *)
Definition maskToString (m : Z) : string := maskToStringLoop 33 0 m.

(** [func (i *Ipv4) ToCidr() string]; [strings.Join] of two pieces. *)
Definition ToCidr (i : HostMask.Ipv4) : string :=
  let h := hostToString (HostMask.Host i) in
  let m := maskToString (HostMask.Mask i) in
  (h ++ "/" ++ m)%string.

(** [func CidrToIpv4(c string) (Ipv4, error)] *)
Definition CidrToIpv4 (c : string) : HostMask.Ipv4 * option error :=
  let res := HostMask.mkIpv4 0 0 in
  let cidrArr := Split c "/"%char in
  match DottedDecimalToUint32 (List.nth 0 cidrArr EmptyString) with
  | (_, Some _) => (res, Some "Failed to convert CIDR string to bits"%string)
  | (h, None) =>
      let res := HostMask.mkIpv4 h (HostMask.Mask res) in
      if Nat.eqb (List.length cidrArr) 2 then
        match stringToMask (List.nth 1 cidrArr EmptyString) with
        | (_, Some _) =>
            (res, Some "Failed to convert CIDR string to bits"%string)
        | (m, None) => (HostMask.setMask res m, None)
        end
      else (HostMask.setMask res TwoFiveFive, None)
  end.

End HostMaskText.

(** *** Text conversion of [main.go] *)

Module CachedText.

(** [binary.Read(buf, binary.BigEndian, &res)] for a [uint32]: four bytes,
    the first the most significant; an error when fewer are there. *)
Definition readBigEndianUint32 (host : list Z) : option Z :=
  match host with
  | b0 :: b1 :: b2 :: b3 :: _ =>
      Some (Z.lor (Z.lor (Z.lor b3 (U32.shl b2 8)) (U32.shl b1 16))
                  (U32.shl b0 24))
  | _ => None
  end.

(** [func stringToHost(s string) (uint32, error)]: the octets are read
    first, their number is checked afterwards. *)
Definition stringToHost (s : string) : Z * option error :=
  let octets := Split s "."%char in
  match parseOctets octets with
  | None => (0, Some "Failed to convert dotted decimal to bits"%string)
  | Some host =>
      if negb (Nat.eqb (List.length host) 4)
      then (0, Some "Failed to convert dotted decimal to bits"%string)
      else
        match readBigEndianUint32 host with
        | None => (0, Some "Failed to convert dotted decimal to bits"%string)
        | Some res => (res, None)
        end
  end.

(** [func CidrToIpv4(c string) (Ipv4, error)], which fills the cached
    fields with [setNetwork] and [setBroadcast] before it returns. *)
Definition CidrToIpv4 (c : string) : Cached.Ipv4 * option error :=
  let res := Cached.mkIpv4 0 0 0 0 in
  let cidrArr := Split c "/"%char in
  match stringToHost (List.nth 0 cidrArr EmptyString) with
  | (_, Some _) => (res, Some "Failed to convert CIDR string to bits"%string)
  | (h, None) =>
      let res := Cached.mkIpv4 h 0 0 0 in
      if Nat.eqb (List.length cidrArr) 2 then
        match stringToMask (List.nth 1 cidrArr EmptyString) with
        | (_, Some _) =>
            (res, Some "Failed to convert CIDR string to bits"%string)
        | (m, None) =>
            (Cached.setBroadcast (Cached.setNetwork (Cached.mkIpv4 h m 0 0)),
             None)
        end
      else
        (Cached.setBroadcast
           (Cached.setNetwork (Cached.mkIpv4 h TwoFiveFive 0 0)), None)
  end.

End CachedText.

(** *** [Subnet] of [main.go], over the cached fields *)

Module CachedOps.

Definition setMask (i : Cached.Ipv4) (m : Z) : Cached.Ipv4 :=
  Cached.mkIpv4 (Cached.Host i) m (Cached.Network i) (Cached.Broadcast i).

(** The line that [fmt.Printf("Subnetting %v to %v\n", start, stop)]
    writes to the standard output. *)
Definition logLine (start stop : Z) : string :=
  ("Subnetting " ++ Itoa start ++ " to " ++ Itoa stop
   ++ String (ascii_of_nat 10) EmptyString)%string.

Fixpoint candidateLoop (iters : nat) (bits : Z) (sharedBits : Z)
         (lo : Cached.Ipv4) : Cached.Ipv4 :=
  match iters with
  | O => lo
  | S iters' =>
      if U32.shr sharedBits bits =? 0
      then setMask lo (U32.sub TwoFiveFive (U32.sub (U32.shl 1 bits) 1))
      else candidateLoop iters' (bits + 1) sharedBits lo
  end.

(** [for { lo.setNetwork(); if lo.Network == lo.Host { break } ... }] *)
Fixpoint alignLoop (fuel : nat) (lo : Cached.Ipv4) : option Cached.Ipv4 :=
  match fuel with
  | O => None
  | S fuel' =>
      let lo := Cached.setNetwork lo in
      if Cached.Network lo =? Cached.Host lo then Some lo
      else alignLoop fuel'
             (setMask lo (U32.add (U32.shl 1 31) (U32.shr (Cached.Mask lo) 1)))
  end.

(** [func Subnet(start uint32, stop uint32) ([]Ipv4, error)], with the
    lines it prints, in order, as first component. *)
Fixpoint Subnet_fuel (loopFuel depth : nat) (start stop : Z)
  : option (list string * (list Cached.Ipv4 * option error)) :=
  match depth with
  | O => None
  | S depth' =>
      let out := [logLine start stop] in
      if start =? stop
      then Some (out, ([Cached.mkIpv4 start TwoFiveFive start start], None))
      else if start >? stop
      then Some (out, ([], Some "Argument order is backwards"%string))
      else
        let lo := Cached.mkIpv4 start 0 0 0 in
        let sharedBits := Z.lxor start stop in
        let lo := candidateLoop 33 0 sharedBits lo in
        match alignLoop loopFuel lo with
        | None => None
        | Some lo =>
            let lo := Cached.setBroadcast lo in
            let res := [lo] in
            if Cached.Broadcast lo =? stop then Some (out, (res, None))
            else if Cached.Broadcast lo >? stop
            then Some (out, (res, Some "Internal Error"%string))
            else
              match
                Subnet_fuel loopFuel depth' (U32.add (Cached.Broadcast lo) 1)
                            stop
              with
              | None => None
              | Some (out', (next, Some err)) =>
                  Some (out ++ out', (res, Some err))
              | Some (out', (next, None)) =>
                  Some (out ++ out', (res ++ next, None))
              end
        end
  end.

End CachedOps.

(** ** Vocabulary of the specification *)

(** The mask of prefix length [32 - k]: [k] low zero bits under ones. *)
Definition prefixMask (k : Z) : Z := U32.modulus - 2 ^ k.

(** [new] is no more restrictive than [old]: it fixes no bit that [old]
    leaves free, so its block contains the block of [old]. *)
Definition lessRestrictive (new old : Z) : Prop := Z.land new old = new.

(** The blocks of [l] follow one another from [start] to [stop]: the first
    begins at [start], each next one right after the broadcast address of
    the one before, and the last ends at [stop]. *)
Fixpoint chained (l : list Ipv4) (start stop : Z) : Prop :=
  match l with
  | [] => False
  | b :: rest =>
      Addr b = start /\
      match rest with
      | [] => Broadcast b = stop
      | _ => chained rest (Broadcast b + 1) stop
      end
  end.

(** The union of the intervals [[Addr, Broadcast]] of [l] is [[lo, hi]]. *)
Definition covers (l : list Ipv4) (lo hi : Z) : Prop :=
  forall x, lo <= x <= hi <-> exists b, In b l /\ Addr b <= x <= Broadcast b.

(** The union of the intervals [[Network, Broadcast]] of [l] is [[lo, hi]]. *)
Definition coversNet (l : list Ipv4) (lo hi : Z) : Prop :=
  forall x,
    lo <= x <= hi <-> exists b, In b l /\ Network b <= x <= Broadcast b.

(** A block in CIDR form: a prefix mask, and an address with the bits
    below the prefix clear. *)
Definition cidrBlock (b : Ipv4) : Prop :=
  U32.in_range (Addr b) /\
  exists k, 0 <= k <= 32 /\ Mask b = prefixMask k /\ Addr b mod 2 ^ k = 0.

(** [s] does not contain the byte [c]. *)
Fixpoint noChar (c : ascii) (s : string) : bool :=
  match s with
  | EmptyString => true
  | String c' s' => negb (Ascii.eqb c' c) && noChar c s'
  end.

(** The decimal text of [n] is read back as [n] and holds no separator. *)
Definition decimalTextOk (n : Z) : bool :=
  match Atoi (Itoa n) with
  | Some v => v =? n
  | None => false
  end
  && noChar "."%char (Itoa n) && noChar "/"%char (Itoa n).

(** The decimal text of [n] holds no space. *)
Definition decimalTextNoSpace (n : Z) : bool := noChar " "%char (Itoa n).

(** The block of the Addr/Mask variant with the host and mask of a
    value of [main.go]. *)
Definition ofCached (c : Cached.Ipv4) : Ipv4 :=
  mkIpv4 (Cached.Host c) (Cached.Mask c).

(** The cached fields hold what [Network()] and [Broadcast()] compute. *)
Definition cacheConsistent (c : Cached.Ipv4) : Prop :=
  Cached.Network c = Network (ofCached c) /\
  Cached.Broadcast c = Broadcast (ofCached c).

(** The block of the Addr/Mask variant with the fields of a Host/Mask one. *)
Definition ofHostMask (i : HostMask.Ipv4) : Ipv4 :=
  mkIpv4 (HostMask.Host i) (HostMask.Mask i).

(** Blocks in ascending order that do not touch: each ends before the
    next begins. *)
Fixpoint ascending (l : list Ipv4) : Prop :=
  match l with
  | [] => True
  | b :: rest =>
      match rest with
      | [] => True
      | c :: _ => Broadcast b < Addr c
      end /\ ascending rest
  end.

(** ** Arithmetic and bitwise forms of the derived addresses *)

(** Range side conditions on literals and on bounded variables. *)
Ltac u32_range :=
  unfold U32.in_range, U32.modulus in *; cbn [Addr Mask] in *; lia.



Lemma testbit_high (x i : Z) :
  U32.in_range x -> 32 <= i -> Z.testbit x i = false.
Proof.
  intros [H0 H1] Hi.
  destruct (Z.eq_dec x 0) as [->|Hx]; [apply Z.bits_0|].
  apply Z.bits_above_log2; [lia|].
  assert (Z.log2 x < 32); [|lia].
  apply Z.log2_lt_pow2; [lia|exact H1].
Qed.

Lemma not_sub (m : Z) : U32.in_range m -> U32.not m = TwoFiveFive - m.
Proof.
  intros Hm. unfold U32.not.
  change (U32.modulus - 1) with (Z.ones 32).
  assert (E : Z.lxor m (Z.ones 32) = Z.land (Z.lnot m) (Z.ones 32)).
  { apply Z.bits_inj'; intros i Hi.
    rewrite Z.lxor_spec, Z.land_spec, Z.lnot_spec by lia.
    rewrite Z.testbit_ones_nonneg by lia.
    destruct (i <? 32) eqn:E.
    - rewrite andb_true_r. apply xorb_true_r.
    - rewrite andb_false_r, xorb_false_r.
      apply testbit_high; [exact Hm|]. apply Z.ltb_ge in E; lia. }
  rewrite E, Z.land_ones by lia.
  unfold Z.lnot, U32.in_range, U32.modulus, TwoFiveFive in *.
  rewrite <- (Z.mod_add _ 1) by lia.
  rewrite Z.mod_small; lia.
Qed.

Lemma in_range_of_bits (x : Z) :
  0 <= x -> (forall i, 32 <= i -> Z.testbit x i = false) -> U32.in_range x.
Proof.
  intros H0 Hb.
  assert (E : x = x mod 2 ^ 32).
  { rewrite <- Z.land_ones by lia.
    apply Z.bits_inj'; intros i Hi.
    rewrite Z.land_spec, Z.testbit_ones_nonneg by lia.
    destruct (i <? 32) eqn:L.
    - now rewrite andb_true_r.
    - rewrite andb_false_r. apply Hb. apply Z.ltb_ge in L; lia. }
  unfold U32.in_range, U32.modulus. rewrite E.
  apply Z.mod_pos_bound; lia.
Qed.

Lemma land_in_range (a b : Z) :
  U32.in_range a -> U32.in_range b -> U32.in_range (Z.land a b).
Proof.
  intros Ha Hb. apply in_range_of_bits.
  - apply Z.land_nonneg. left. apply Ha.
  - intros i Hi. rewrite Z.land_spec, (testbit_high a) by assumption.
    reflexivity.
Qed.

Lemma lor_in_range (a b : Z) :
  U32.in_range a -> U32.in_range b -> U32.in_range (Z.lor a b).
Proof.
  intros Ha Hb. apply in_range_of_bits.
  - apply Z.lor_nonneg. split; [apply Ha|apply Hb].
  - intros i Hi.
    rewrite Z.lor_spec, (testbit_high a), (testbit_high b) by assumption.
    reflexivity.
Qed.

Lemma lxor_in_range (a b : Z) :
  U32.in_range a -> U32.in_range b -> U32.in_range (Z.lxor a b).
Proof.
  intros Ha Hb. apply in_range_of_bits.
  - apply Z.lxor_nonneg. split; intros _; [apply Hb|apply Ha].
  - intros i Hi.
    rewrite Z.lxor_spec, (testbit_high a), (testbit_high b) by assumption.
    reflexivity.
Qed.


Lemma not_in_range (m : Z) : U32.in_range m -> U32.in_range (U32.not m).
Proof.
  intros Hm. rewrite not_sub by assumption.
  unfold U32.in_range, U32.modulus, TwoFiveFive in *. lia.
Qed.

(** The host part and the network part of an address add up to it. *)
Lemma land_split (h m : Z) :
  U32.in_range h -> U32.in_range m ->
  Z.land h m + Z.land h (U32.not m) = h.
Proof.
  intros Hh Hm.
  rewrite <- Z.add_lor_land.
  assert (E0 : Z.land (Z.land h m) (Z.land h (U32.not m)) = 0).
  { apply Z.bits_inj'; intros i Hi. unfold U32.not.
    change (U32.modulus - 1) with (Z.ones 32).
    rewrite !Z.land_spec, Z.lxor_spec, Z.bits_0.
    rewrite Z.testbit_ones_nonneg by lia.
    destruct (i <? 32) eqn:L.
    - destruct (Z.testbit h i), (Z.testbit m i); reflexivity.
    - rewrite (testbit_high h); try assumption; try reflexivity.
      apply Z.ltb_ge in L; lia. }
  assert (E1 : Z.lor (Z.land h m) (Z.land h (U32.not m)) = h).
  { apply Z.bits_inj'; intros i Hi. unfold U32.not.
    change (U32.modulus - 1) with (Z.ones 32).
    rewrite Z.lor_spec, !Z.land_spec, Z.lxor_spec.
    rewrite Z.testbit_ones_nonneg by lia.
    destruct (i <? 32) eqn:L.
    - destruct (Z.testbit h i), (Z.testbit m i); reflexivity.
    - rewrite (testbit_high h), (testbit_high m); try assumption;
        try reflexivity; apply Z.ltb_ge in L; lia. }
  rewrite E0, E1. lia.
Qed.

Lemma HostMask_Network_land (h m : Z) :
  U32.in_range h -> U32.in_range m ->
  HostMask.Network (HostMask.mkIpv4 h m) = Z.land h m.
Proof.
  intros Hh Hm. unfold HostMask.Network, U32.sub, U32.add, U32.wrap. simpl.
  rewrite Zminus_mod_idemp_l.
  replace (m + h - Z.lor m h) with (Z.land h m)
    by (pose proof (Z.add_lor_land m h); rewrite (Z.land_comm h m); lia).
  apply Z.mod_small. apply land_in_range; assumption.
Qed.

Lemma HostMask_Broadcast_lor (h m : Z) :
  U32.in_range h -> U32.in_range m ->
  HostMask.Broadcast (HostMask.mkIpv4 h m) = Z.lor h (U32.not m).
Proof.
  intros Hh Hm. unfold HostMask.Broadcast.
  rewrite HostMask_Network_land by assumption. simpl.
  unfold U32.add, U32.sub, U32.wrap.
  rewrite Zplus_mod_idemp_l.
  pose proof (Z.add_lor_land h (U32.not m)) as E.
  pose proof (land_split h m Hh Hm) as S.
  pose proof (lor_in_range h (U32.not m) Hh (not_in_range m Hm)) as R.
  rewrite not_sub in * by assumption.
  replace (TwoFiveFive - m + Z.land h m) with (Z.lor h (TwoFiveFive - m)) by lia.
  apply Z.mod_small. exact R.
Qed.

(** C7. The arithmetic forms of the derived addresses are the bitwise ones:
    in the Host/Mask variant [Network()], computed as
    [Mask + Host - (Mask | Host)], is [Host & Mask], and [Broadcast()],
    computed as [0xFFFFFFFF - Mask + Network()], is [Host | ^Mask], all
    modulo 2^32; so the Host/Mask variant, the Addr/Mask variant and the
    cached fields set by [setNetwork] and [setBroadcast] agree on the same
    address and mask. *)
Theorem network_broadcast_arith_is_bitwise (h m : Z) :
  U32.in_range h -> U32.in_range m ->
  HostMask.Network (HostMask.mkIpv4 h m) = Z.land h m /\
  HostMask.Broadcast (HostMask.mkIpv4 h m) = Z.lor h (U32.not m) /\
  HostMask.Network (HostMask.mkIpv4 h m) = Network (mkIpv4 h m) /\
  HostMask.Broadcast (HostMask.mkIpv4 h m) = Broadcast (mkIpv4 h m) /\
  (forall n b,
      let i := Cached.setBroadcast (Cached.setNetwork (Cached.mkIpv4 h m n b)) in
      Cached.Network i = Network (mkIpv4 h m) /\
      Cached.Broadcast i = Broadcast (mkIpv4 h m)).
Proof.
  intros Hh Hm.
  pose proof (HostMask_Network_land h m Hh Hm) as N.
  pose proof (HostMask_Broadcast_lor h m Hh Hm) as B.
  unfold Network, Broadcast. simpl.
  rewrite (Z.land_comm m h), (Z.lor_comm (U32.not m) h).
  repeat split; assumption.
Qed.

Lemma network_broadcast_arith_is_bitwise_witness :
  HostMask.Network (HostMask.mkIpv4 183806472 4294967280) = 183806464 /\
  HostMask.Broadcast (HostMask.mkIpv4 183806472 4294967280) = 183806479.
Proof.
  pose proof (network_broadcast_arith_is_bitwise 183806472 4294967280) as H.
  destruct H as (N & B & _).
  - u32_range.
  - u32_range.
  - split; [rewrite N | rewrite B]; reflexivity.
Defined.

(** ** Containment *)

Lemma IsInNet_spec (n1 n2 : HostMask.Ipv4) :
  HostMask.IsInNet n1 n2 = true <->
  HostMask.Host n1 >= HostMask.Host n2 /\
  HostMask.Broadcast n1 <= HostMask.Broadcast n2.
Proof.
  unfold HostMask.IsInNet.
  destruct (HostMask.Host n1 >=? HostMask.Host n2) eqn:E1;
    destruct (HostMask.Broadcast n1 <=? HostMask.Broadcast n2) eqn:E2; simpl;
    rewrite ?Z.geb_leb in E1;
    rewrite ?Z.leb_le, ?Z.leb_gt in E1, E2;
    split; intros H; try discriminate; try reflexivity; try lia.
Qed.

(** C3. The containment test is meant to hold exactly when
    [a.address >= b.address] and [a.broadcast() <= b.broadcast()].
    [IsInNet] of the Host/Mask variant does so, but [IsIn] compares the
    masks: 10.244.170.8/28 lies within 10.244.170.0/24, and [IsIn] answers
    false. *)
Theorem IsIn_misses_contained_range :
  let a := mkIpv4 183806472 4294967280 in
  let b := mkIpv4 183806464 4294967040 in
  (Addr a >= Addr b /\ Broadcast a <= Broadcast b) /\
  IsIn a b = false /\
  HostMask.IsInNet (HostMask.mkIpv4 183806472 4294967280)
                   (HostMask.mkIpv4 183806464 4294967040) = true.
Proof.
  cbv zeta. split; [|split].
  - vm_compute. split; discriminate.
  - reflexivity.
  - reflexivity.
Qed.

(** ** Prefix masks *)

Lemma pow2_bounds (k : Z) : 0 <= k <= 32 -> 0 < 2 ^ k <= U32.modulus.
Proof.
  intros Hk. split.
  - apply Z.pow_pos_nonneg; lia.
  - unfold U32.modulus. apply Z.pow_le_mono_r; lia.
Qed.

Lemma prefixMask_in_range (k : Z) :
  0 <= k <= 32 -> U32.in_range (prefixMask k).
Proof.
  intros Hk. pose proof (pow2_bounds k Hk).
  unfold U32.in_range, prefixMask. lia.
Qed.

Lemma pow2_succ (k : Z) : 0 <= k -> 2 ^ (k + 1) = 2 * 2 ^ k.
Proof. intros Hk. rewrite Z.pow_add_r by lia. lia. Qed.

Lemma nextMask_eq (m : Z) :
  U32.in_range m -> nextMask m = 2 ^ 31 + m / 2.
Proof.
  intros Hm. unfold nextMask, U32.add, U32.shl, U32.shr, U32.wrap.
  rewrite Z.shiftr_div_pow2 by lia.
  change (Z.shiftl 1 31 mod U32.modulus) with (2 ^ 31).
  change (2 ^ 1) with 2.
  apply Z.mod_small.
  unfold U32.in_range, U32.modulus in *.
  assert (0 <= m / 2 < 2 ^ 31); [|lia].
  change (2 ^ 32) with (2 * 2 ^ 31) in Hm.
  split; [apply Z.div_pos; lia | apply Z.div_lt_upper_bound; lia].
Qed.

Lemma nextMask_in_range (m : Z) :
  U32.in_range m -> U32.in_range (nextMask m).
Proof.
  intros Hm. unfold nextMask, U32.add, U32.wrap, U32.in_range.
  apply Z.mod_pos_bound. reflexivity.
Qed.

Lemma nextMask_prefixMask (k : Z) :
  1 <= k <= 32 -> nextMask (prefixMask k) = prefixMask (k - 1).
Proof.
  intros Hk. rewrite nextMask_eq by (apply prefixMask_in_range; lia).
  unfold prefixMask, U32.modulus.
  replace k with ((k - 1) + 1) at 1 by lia.
  rewrite pow2_succ by lia.
  change (2 ^ 32) with (2 * 2 ^ 31).
  rewrite <- Z.mul_sub_distr_l, Z.mul_comm, Z.div_mul by lia. lia.
Qed.


Lemma prefixMask_shiftl (k : Z) :
  0 <= k <= 32 -> prefixMask k = Z.shiftl (Z.ones (32 - k)) k.
Proof.
  intros Hk. rewrite Z.shiftl_mul_pow2, Z.ones_equiv by lia.
  unfold prefixMask, U32.modulus.
  replace 32 with ((32 - k) + k) at 1 by lia.
  rewrite Z.pow_add_r by lia. lia.
Qed.

Lemma prefixMask_testbit (k i : Z) :
  0 <= k <= 32 -> 0 <= i ->
  Z.testbit (prefixMask k) i = (k <=? i) && (i <? 32).
Proof.
  intros Hk Hi. rewrite prefixMask_shiftl by assumption.
  rewrite Z.shiftl_spec by assumption.
  rewrite Z.testbit_ones by lia.
  destruct (Z.leb_spec k i), (Z.ltb_spec i 32),
    (Z.leb_spec 0 (i - k)), (Z.ltb_spec (i - k) (32 - k));
    simpl; try reflexivity; lia.
Qed.

(** The network address under a prefix mask clears the low [k] bits. *)
Lemma Network_prefixMask (a k : Z) :
  U32.in_range a -> 0 <= k <= 32 ->
  Network (mkIpv4 a (prefixMask k)) = a - a mod 2 ^ k.
Proof.
  intros Ha Hk. unfold Network. simpl.
  assert (E : Z.land (prefixMask k) a = Z.ldiff a (Z.ones k)).
  { apply Z.bits_inj'; intros i Hi.
    rewrite Z.land_spec, Z.ldiff_spec, prefixMask_testbit by assumption.
    rewrite Z.testbit_ones_nonneg by lia.
    destruct (i <? 32) eqn:L.
    - rewrite andb_true_r, andb_comm. f_equal.
      destruct (Z.leb_spec k i), (Z.ltb_spec i k); simpl;
        try reflexivity; lia.
    - rewrite (testbit_high a) by (try assumption; apply Z.ltb_ge in L; lia).
      rewrite andb_false_r. reflexivity. }
  rewrite E, Z.ldiff_ones_r by lia.
  rewrite Z.shiftl_mul_pow2, Z.shiftr_div_pow2 by lia.
  pose proof (Z.div_mod a (2 ^ k)) as D.
  pose proof (pow2_bounds k Hk). lia.
Qed.

Lemma not_prefixMask (k : Z) :
  0 <= k <= 32 -> U32.not (prefixMask k) = Z.ones k.
Proof.
  intros Hk. rewrite not_sub by (apply prefixMask_in_range; assumption).
  rewrite Z.ones_equiv. unfold prefixMask, U32.modulus, TwoFiveFive. lia.
Qed.

(** The broadcast address under a prefix mask sets the low [k] bits. *)
Lemma Broadcast_prefixMask (a k : Z) :
  U32.in_range a -> 0 <= k <= 32 ->
  Broadcast (mkIpv4 a (prefixMask k)) = a - a mod 2 ^ k + 2 ^ k - 1.
Proof.
  intros Ha Hk. unfold Broadcast. simpl.
  rewrite not_prefixMask by assumption.
  pose proof (Z.add_lor_land (Z.ones k) a) as E.
  rewrite (Z.land_comm (Z.ones k) a), Z.land_ones in E by lia.
  rewrite Z.ones_equiv in *. lia.
Qed.

Lemma Broadcast_in_range (b : Ipv4) :
  U32.in_range (Addr b) -> U32.in_range (Mask b) -> U32.in_range (Broadcast b).
Proof.
  intros Ha Hm. apply lor_in_range; [apply not_in_range|]; assumption.
Qed.

Lemma Broadcast_ge_Addr (b : Ipv4) :
  U32.in_range (Addr b) -> U32.in_range (Mask b) -> Addr b <= Broadcast b.
Proof.
  intros Ha Hm. unfold Broadcast.
  pose proof (Z.add_lor_land (U32.not (Mask b)) (Addr b)) as E.
  pose proof (not_in_range _ Hm) as Hn.
  assert (Z.land (U32.not (Mask b)) (Addr b) <= U32.not (Mask b)).
  { pose proof (land_split (U32.not (Mask b)) (Addr b) Hn Ha) as S.
    assert (0 <= Z.land (U32.not (Mask b)) (U32.not (Addr b))).
    { apply Z.land_nonneg. left. apply Hn. }
    lia. }
  lia.
Qed.

Lemma IsContiguous_prefixMask_nat (a : Z) (n : nat) :
  (n <= 32)%nat -> IsContiguous (mkIpv4 a (prefixMask (Z.of_nat n))) = true.
Proof.
  intros Hn.
  do 33 (destruct n as [|n]; [vm_compute; reflexivity|]).
  lia.
Qed.

Lemma IsContiguous_prefixMask (a k : Z) :
  0 <= k <= 32 -> IsContiguous (mkIpv4 a (prefixMask k)) = true.
Proof.
  intros Hk. rewrite <- (Z2Nat.id k) by lia.
  apply IsContiguous_prefixMask_nat. lia.
Qed.

(** ** The candidate mask of [Subnet] *)

(** Two addresses agree above bit [j] exactly when their exclusive or is
    below [2 ^ j]. *)
Lemma lxor_lt_pow2_iff (a b j : Z) :
  0 <= a -> 0 <= b -> 0 <= j ->
  Z.lxor a b < 2 ^ j <-> a / 2 ^ j = b / 2 ^ j.
Proof.
  intros Ha Hb Hj.
  assert (Hx : 0 <= Z.lxor a b) by (apply Z.lxor_nonneg; tauto).
  assert (Hp : 0 < 2 ^ j) by (apply Z.pow_pos_nonneg; lia).
  rewrite <- !Z.shiftr_div_pow2 by assumption.
  split; intros H.
  - apply Z.lxor_eq. rewrite <- Z.shiftr_lxor, Z.shiftr_div_pow2 by assumption.
    apply Z.div_small. lia.
  - assert (E : Z.lxor a b / 2 ^ j = 0).
    { rewrite <- Z.shiftr_div_pow2, Z.shiftr_lxor, H by assumption.
      apply Z.lxor_nilpotent. }
    apply Z.div_small_iff in E; lia.
Qed.

Lemma candidate_mask_value (bits : Z) :
  0 <= bits <= 32 ->
  U32.sub TwoFiveFive (U32.sub (U32.shl 1 bits) 1) = prefixMask bits.
Proof.
  intros Hb. unfold U32.sub, U32.shl, U32.wrap.
  rewrite Z.shiftl_mul_pow2, Z.mul_1_l by lia.
  rewrite Zminus_mod_idemp_l, Zminus_mod_idemp_r.
  pose proof (pow2_bounds bits Hb) as P.
  unfold prefixMask, TwoFiveFive, U32.modulus in *.
  replace (4294967295 - (2 ^ bits - 1)) with (2 ^ 32 - 2 ^ bits)
    by (change (2 ^ 32) with 4294967296; lia).
  apply Z.mod_small. lia.
Qed.

Lemma candidateLoop_spec (iters : nat) :
  forall bits x lo,
    0 <= bits -> bits + Z.of_nat iters = 33 -> 0 <= x < U32.modulus ->
    (bits = 0 \/ 2 ^ (bits - 1) <= x) ->
    exists w, bits <= w <= 32 /\ x < 2 ^ w /\ (w = 0 \/ 2 ^ (w - 1) <= x) /\
              candidateLoop iters bits x lo = setMask lo (prefixMask w).
Proof.
  induction iters as [|iters IH]; intros bits x lo Hb Hi Hx Hlow.
  - exfalso. destruct Hlow as [->|Hlow]; [lia|].
    replace (bits - 1) with 32 in Hlow by lia.
    unfold U32.modulus in Hx. lia.
  - assert (Hb32 : bits <= 32) by lia.
    pose proof (pow2_bounds bits (conj Hb Hb32)) as P.
    simpl. unfold U32.shr. rewrite Z.shiftr_div_pow2 by assumption.
    destruct (x / 2 ^ bits =? 0) eqn:E.
    + apply Z.eqb_eq in E. apply Z.div_small_iff in E; [|lia].
      exists bits. rewrite candidate_mask_value by lia.
      repeat split; try lia; assumption.
    + apply Z.eqb_neq in E.
      assert (2 ^ bits <= x).
      { destruct (Z_lt_le_dec x (2 ^ bits)) as [L|L]; [|exact L].
        exfalso. apply E. apply Z.div_small. lia. }
      destruct (IH (bits + 1) x lo) as (w & Hw & Hlt & Hge & Heq);
        try lia.
      { right. replace (bits + 1 - 1) with bits by lia. assumption. }
      exists w. repeat split; try lia; assumption.
Qed.

(** For [start < stop] the candidate mask is the prefix mask of the least
    [w] above which the two bounds agree. *)
Lemma candidate_spec (start stop : Z) (lo : Ipv4) :
  U32.in_range start -> U32.in_range stop -> start < stop ->
  exists w, 1 <= w <= 32 /\
            start / 2 ^ w = stop / 2 ^ w /\
            (forall j, 0 <= j -> start / 2 ^ j = stop / 2 ^ j -> w <= j) /\
            candidateLoop 33 0 (Z.lxor start stop) lo = setMask lo (prefixMask w).
Proof.
  intros Hs Ht Hlt.
  pose proof (lxor_in_range _ _ Hs Ht) as Hx.
  destruct (candidateLoop_spec 33 0 (Z.lxor start stop) lo) as
      (w & Hw & Hwlt & Hwge & Heq); try lia; try exact Hx.
  assert (Hw1 : 1 <= w).
  { destruct (Z.eq_dec w 0) as [->|]; [|lia].
    exfalso. change (2 ^ 0) with 1 in Hwlt.
    assert (Z.lxor start stop = 0) by (unfold U32.in_range in Hx; lia).
    apply Z.lxor_eq in H. lia. }
  exists w. split; [lia|]. split; [|split].
  - apply lxor_lt_pow2_iff; try lia; [apply Hs|apply Ht].
  - intros j Hj E.
    apply lxor_lt_pow2_iff in E; try lia; [|apply Hs|apply Ht].
    destruct Hwge as [->|Hwge]; [lia|].
    destruct (Z_lt_le_dec j w) as [L|L]; [|exact L].
    exfalso.
    assert (2 ^ j <= 2 ^ (w - 1)) by (apply Z.pow_le_mono_r; lia).
    lia.
  - exact Heq.
Qed.

(** ** The alignment loop of [Subnet] *)

Lemma aligned_iff (a k : Z) :
  U32.in_range a -> 0 <= k <= 32 ->
  Network (mkIpv4 a (prefixMask k)) = a <-> a mod 2 ^ k = 0.
Proof.
  intros Ha Hk. rewrite Network_prefixMask by assumption. lia.
Qed.

Lemma alignLoop_prefixMask (w : nat) :
  forall fuel a,
    (w <= 32)%nat -> (w < fuel)%nat -> U32.in_range a ->
    exists k, 0 <= k <= Z.of_nat w /\ a mod 2 ^ k = 0 /\
              (k = Z.of_nat w \/ a mod 2 ^ (k + 1) <> 0) /\
              alignLoop fuel (mkIpv4 a (prefixMask (Z.of_nat w))) =
              Some (mkIpv4 a (prefixMask k)).
Proof.
  induction w as [|w IH]; intros fuel a Hw Hf Ha;
    (destruct fuel as [|fuel]; [lia|]); cbn [alignLoop Addr].
  - change (Z.of_nat 0) with 0.
    exists 0. rewrite (proj2 (aligned_iff a 0 Ha ltac:(lia)))
      by (change (2 ^ 0) with 1; apply Z.mod_1_r).
    rewrite Z.eqb_refl. change (2 ^ 0) with 1.
    rewrite Z.mod_1_r. repeat split; lia.
  - destruct (Network (mkIpv4 a (prefixMask (Z.of_nat (S w)))) =? a) eqn:E.
    + apply Z.eqb_eq in E. apply aligned_iff in E; [|assumption|lia].
      exists (Z.of_nat (S w)). repeat split; try lia; assumption.
    + apply Z.eqb_neq in E.
      assert (E' : a mod 2 ^ Z.of_nat (S w) <> 0).
      { intros C. apply E. apply aligned_iff; [assumption|lia|exact C]. }
      unfold setMask. cbn [Addr Mask].
      rewrite nextMask_prefixMask by lia.
      replace (Z.of_nat (S w) - 1) with (Z.of_nat w) by lia.
      destruct (IH fuel a) as (k & Hk & Hal & Hmax & Heq); try lia;
        try assumption.
      exists k. repeat split; try lia; try assumption.
      destruct Hmax as [->|Hmax]; [|right; exact Hmax].
      right. replace (Z.of_nat w + 1) with (Z.of_nat (S w)) by lia. exact E'.
Qed.

Lemma Network_all_ones (a : Z) :
  U32.in_range a -> Network (mkIpv4 a TwoFiveFive) = a.
Proof.
  intros Ha. change TwoFiveFive with (prefixMask 0).
  apply aligned_iff; [assumption|lia|]. apply Z.mod_1_r.
Qed.

(** From any mask whatever the loop is over after at most 32 updates:
    every update sets one more leading bit. *)
Lemma alignLoop_total (r : nat) :
  forall fuel lo,
    (r <= 32)%nat -> (r < fuel)%nat ->
    U32.in_range (Addr lo) -> U32.in_range (Mask lo) ->
    prefixMask (Z.of_nat r) <= Mask lo ->
    exists lo', alignLoop fuel lo = Some lo' /\
                Addr lo' = Addr lo /\ Network lo' = Addr lo' /\
                Mask lo <= Mask lo' /\ U32.in_range (Mask lo').
Proof.
  induction r as [|r IH]; intros fuel lo Hr Hf Ha Hm Hge;
    (destruct fuel as [|fuel]; [lia|]); cbn [alignLoop].
  - assert (Mask lo = TwoFiveFive).
    { unfold prefixMask, U32.in_range, U32.modulus, TwoFiveFive in *.
      change (2 ^ Z.of_nat 0) with 1 in Hge. lia. }
    destruct lo as [a m]. cbn [Addr Mask] in *. subst m.
    rewrite Network_all_ones, Z.eqb_refl by assumption.
    eexists. split; [reflexivity|]. cbn [Addr Mask].
    rewrite Network_all_ones by assumption.
    repeat split; try reflexivity; unfold TwoFiveFive, U32.modulus; lia.
  - destruct (Network lo =? Addr lo) eqn:E.
    + apply Z.eqb_eq in E. exists lo. repeat split; try lia; try assumption;
        apply Hm.
    + pose proof (nextMask_eq _ Hm) as N.
      pose proof (nextMask_in_range _ Hm) as NR.
      assert (G : prefixMask (Z.of_nat r) <= nextMask (Mask lo) /\
                  Mask lo <= nextMask (Mask lo)).
      { rewrite N. unfold prefixMask, U32.in_range, U32.modulus in *.
        replace (Z.of_nat (S r)) with (Z.of_nat r + 1) in Hge by lia.
        rewrite pow2_succ in Hge by lia.
        change (2 ^ 32) with (2 * 2 ^ 31) in *.
        assert (2 ^ 31 - 2 ^ Z.of_nat r <= Mask lo / 2).
        { apply Z.div_le_lower_bound; lia. }
        assert (2 * (Mask lo / 2) >= Mask lo - 1).
        { pose proof (Z.div_mod (Mask lo) 2).
          pose proof (Z.mod_pos_bound (Mask lo) 2). lia. }
        lia. }
      destruct (IH fuel (setMask lo (nextMask (Mask lo)))) as
          (lo' & Heq & HA & HN & HM & HR); try lia; cbn [setMask Addr Mask];
        try assumption; try apply G.
      exists lo'. cbn [setMask Addr Mask] in *.
      repeat split; try assumption; try lia; apply HR.
Qed.

Lemma alignLoop_fuel_mono (fuel : nat) :
  forall fuel' lo lo',
    (fuel <= fuel')%nat -> alignLoop fuel lo = Some lo' ->
    alignLoop fuel' lo = Some lo'.
Proof.
  induction fuel as [|fuel IH]; intros fuel' lo lo' Hle H; [discriminate|].
  destruct fuel' as [|fuel']; [lia|].
  cbn [alignLoop] in *.
  destruct (Network lo =? Addr lo); [assumption|].
  apply IH; [lia|assumption].
Qed.

Lemma prefixMask_lessRestrictive (w k : Z) :
  0 <= k <= w -> w <= 32 -> lessRestrictive (prefixMask w) (prefixMask k).
Proof.
  intros Hk Hw. unfold lessRestrictive.
  apply Z.bits_inj'; intros i Hi.
  rewrite Z.land_spec, !prefixMask_testbit by lia.
  destruct (Z.leb_spec w i), (Z.leb_spec k i), (Z.ltb_spec i 32);
    simpl; try reflexivity; lia.
Qed.

Lemma pow2_divide_mod (a p q : Z) :
  0 <= q <= p -> a mod 2 ^ p = 0 -> a mod 2 ^ q = 0.
Proof.
  intros Hq H.
  assert (Hp : 0 < 2 ^ p) by (apply Z.pow_pos_nonneg; lia).
  assert (Hq' : 0 < 2 ^ q) by (apply Z.pow_pos_nonneg; lia).
  apply Z.mod_divide in H; [|lia]. apply Z.mod_divide; [lia|].
  apply Z.divide_trans with (2 ^ p); [|exact H].
  exists (2 ^ (p - q)). rewrite <- Z.pow_add_r by lia. f_equal. lia.
Qed.

(** Adding a block of size [2 ^ k] to an address that is aligned to
    [2 ^ k] and no further gives one aligned to [2 ^ (k + 1)]. *)
Lemma next_start_aligned (a k : Z) :
  0 <= k -> a mod 2 ^ k = 0 -> a mod 2 ^ (k + 1) <> 0 ->
  (a + 2 ^ k) mod 2 ^ (k + 1) = 0.
Proof.
  intros Hk H0 H1.
  assert (Hp : 0 < 2 ^ k) by (apply Z.pow_pos_nonneg; lia).
  rewrite pow2_succ in * by assumption.
  pose proof (Z.div_mod a (2 ^ k) ltac:(lia)) as D. rewrite H0 in D.
  set (q := a / 2 ^ k) in *.
  assert (Ea : a = 2 ^ k * q) by lia.
  rewrite Ea, (Z.mul_comm 2), Z.mul_mod_distr_l in H1 by lia.
  replace (a + 2 ^ k) with (2 ^ k * (q + 1)) by lia.
  rewrite (Z.mul_comm 2), Z.mul_mod_distr_l by lia.
  pose proof (Z.mod_pos_bound q 2 ltac:(lia)).
  assert (q mod 2 = 1) by lia.
  assert ((q + 1) mod 2 = 0).
  { rewrite Z.add_mod, H2 by lia. reflexivity. }
  lia.
Qed.

(** ** One call of [Subnet] *)

(** For [start < stop] the call emits the block of size [2 ^ k] at [start]
    and then ends, fails or recurses, according to how the broadcast
    address of the block compares with [stop]. *)
Lemma Subnet_fuel_step (lf : nat) (start stop : Z) :
  U32.in_range start -> U32.in_range stop -> start < stop -> (32 < lf)%nat ->
  exists k,
    0 <= k <= 32 /\ start mod 2 ^ k = 0 /\
    let lo := mkIpv4 start (prefixMask k) in
    Broadcast lo = start + 2 ^ k - 1 /\
    ((Broadcast lo = stop /\
      forall d, Subnet_fuel lf (S d) start stop = Some ([lo], None)) \/
     (stop < Broadcast lo /\
      start / 2 ^ k = stop / 2 ^ k /\
      (forall j, 0 <= j -> start / 2 ^ j = stop / 2 ^ j -> k <= j) /\
      forall d, Subnet_fuel lf (S d) start stop =
                Some ([lo], Some "Internal Error"%string)) \/
     (Broadcast lo < stop /\
      start mod 2 ^ (k + 1) <> 0 /\
      forall d, Subnet_fuel lf (S d) start stop =
                match Subnet_fuel lf d (start + 2 ^ k) stop with
                | None => None
                | Some (next, Some err) => Some ([lo], Some err)
                | Some (next, None) => Some (lo :: next, None)
                end)).
Proof.
  intros Hs Ht Hlt Hlf.
  destruct (candidate_spec start stop (mkIpv4 start 0) Hs Ht Hlt) as
      (w & Hw & Hagree & Hmin & Hcand).
  unfold setMask in Hcand. cbn [Addr] in Hcand.
  destruct (alignLoop_prefixMask (Z.to_nat w) lf start) as
      (k & Hk & Hal & Hmax & Halign); try lia; try assumption.
  rewrite Z2Nat.id in * by lia.
  assert (Hk32 : 0 <= k <= 32) by lia.
  pose proof (pow2_bounds k Hk32) as Pk.
  exists k. split; [assumption|]. split; [assumption|]. cbv zeta.
  assert (HB : Broadcast (mkIpv4 start (prefixMask k)) = start + 2 ^ k - 1).
  { rewrite Broadcast_prefixMask, Hal by assumption. lia. }
  split; [exact HB|].
  assert (Hunfold : forall d,
             Subnet_fuel lf (S d) start stop =
             let lo := mkIpv4 start (prefixMask k) in
             if Broadcast lo =? stop then Some ([lo], None)
             else if Broadcast lo >? stop
                  then Some ([lo], Some "Internal Error"%string)
                  else match Subnet_fuel lf d (U32.add (Broadcast lo) 1) stop with
                       | None => None
                       | Some (next, Some err) => Some ([lo], Some err)
                       | Some (next, None) => Some ([lo] ++ next, None)
                       end).
  { intros d. cbn [Subnet_fuel].
    replace (start =? stop) with false by (symmetry; apply Z.eqb_neq; lia).
    replace (start >? stop) with false
      by (symmetry; rewrite Z.gtb_ltb; apply Z.ltb_ge; lia).
    rewrite Hcand, Halign. reflexivity. }
  cbv zeta in Hunfold. rewrite HB in *.
  destruct (Z.lt_trichotomy (start + 2 ^ k - 1) stop) as [L|[E|G]].
  - right; right. split; [exact L|].
    assert (Hk' : k < w).
    { destruct (Z.eq_dec k w) as [->|]; [|lia]. exfalso.
      pose proof (Z.div_mod start (2 ^ w) ltac:(lia)) as D1.
      pose proof (Z.div_mod stop (2 ^ w) ltac:(lia)) as D2.
      pose proof (Z.mod_pos_bound stop (2 ^ w) ltac:(lia)).
      rewrite Hagree in D1. lia. }
    split; [destruct Hmax; [lia|assumption]|].
    intros d. rewrite Hunfold.
    replace (start + 2 ^ k - 1 =? stop) with false
      by (symmetry; apply Z.eqb_neq; lia).
    replace (start + 2 ^ k - 1 >? stop) with false
      by (symmetry; rewrite Z.gtb_ltb; apply Z.ltb_ge; lia).
    replace (U32.add (start + 2 ^ k - 1) 1) with (start + 2 ^ k).
    + reflexivity.
    + unfold U32.add, U32.wrap. symmetry.
      replace (start + 2 ^ k - 1 + 1) with (start + 2 ^ k) by lia.
      apply Z.mod_small. unfold U32.in_range in *. lia.
  - left. split; [exact E|]. intros d. rewrite Hunfold.
    replace (start + 2 ^ k - 1 =? stop) with true
      by (symmetry; apply Z.eqb_eq; lia).
    reflexivity.
  - right; left. split; [exact G|].
    assert (Hkw : k = w).
    { destruct (Z.eq_dec k w) as [e|ne]; [exact e|]. exfalso.
      assert (start / 2 ^ k <> stop / 2 ^ k).
      { intros C. apply Hmin in C; lia. }
      pose proof (Z.div_le_mono start stop (2 ^ k) ltac:(lia) ltac:(lia)).
      pose proof (Z.div_mod start (2 ^ k) ltac:(lia)) as D1.
      pose proof (Z.div_mod stop (2 ^ k) ltac:(lia)) as D2.
      pose proof (Z.mod_pos_bound stop (2 ^ k) ltac:(lia)).
      nia. }
    subst k. split; [exact Hagree|]. split; [exact Hmin|].
    intros d. rewrite Hunfold.
    replace (start + 2 ^ w - 1 =? stop) with false
      by (symmetry; apply Z.eqb_neq; lia).
    replace (start + 2 ^ w - 1 >? stop) with true
      by (symmetry; rewrite Z.gtb_ltb; apply Z.ltb_lt; lia).
    reflexivity.
Qed.

Lemma Subnet_fuel_mono (d : nat) :
  forall lf lf' d' start stop r,
    (lf <= lf')%nat -> (d <= d')%nat ->
    Subnet_fuel lf d start stop = Some r ->
    Subnet_fuel lf' d' start stop = Some r.
Proof.
  induction d as [|d IH]; intros lf lf' d' start stop r Hlf Hd H;
    [discriminate|].
  destruct d' as [|d']; [lia|].
  cbn [Subnet_fuel] in *.
  destruct (start =? stop); [assumption|].
  destruct (start >? stop); [assumption|].
  destruct (alignLoop lf _) as [lo|] eqn:A; [|discriminate].
  rewrite (alignLoop_fuel_mono _ _ _ _ Hlf A).
  destruct (Broadcast lo =? stop); [assumption|].
  destruct (Broadcast lo >? stop); [assumption|].
  destruct (Subnet_fuel lf d _ stop) as [r'|] eqn:R; [|discriminate].
  rewrite (IH lf lf' d' _ _ r'); [assumption|lia|lia|assumption].
Qed.

Lemma Subnet_fuel_single (lf d : nat) (start : Z) :
  Subnet_fuel lf (S d) start start = Some ([mkIpv4 start TwoFiveFive], None).
Proof. cbn [Subnet_fuel]. rewrite Z.eqb_refl. reflexivity. Qed.

Lemma Subnet_fuel_backwards (lf d : nat) (start stop : Z) :
  stop < start ->
  Subnet_fuel lf (S d) start stop =
  Some ([], Some "Argument order is backwards"%string).
Proof.
  intros H. cbn [Subnet_fuel].
  replace (start =? stop) with false by (symmetry; apply Z.eqb_neq; lia).
  replace (start >? stop) with true
    by (symmetry; rewrite Z.gtb_ltb; apply Z.ltb_lt; lia).
  reflexivity.
Qed.

(** ** Termination and depth of [Subnet] *)

(** A call whose [start] is aligned to [2 ^ j] nests at most [33 - j]
    deep: every nested call starts at an address aligned one bit further. *)
Lemma Subnet_fuel_depth (lf : nat) (n : nat) :
  forall j start stop,
    (32 < lf)%nat -> Z.of_nat n + j = 32 -> 0 <= j ->
    U32.in_range start -> U32.in_range stop ->
    start mod 2 ^ j = 0 ->
    exists r, Subnet_fuel lf (S n) start stop = Some r.
Proof.
  induction n as [|n IH]; intros j start stop Hlf Hn Hj Hs Ht Hal.
  - assert (j = 32) by lia. subst j.
    assert (start = 0).
    { pose proof (Z.div_mod start (2 ^ 32) ltac:(lia)) as D.
      rewrite (Z.div_small start) in D by exact Hs. lia. }
    subst start.
    destruct (Z.eq_dec 0 stop) as [<-|Hne].
    + eexists. apply Subnet_fuel_single.
    + destruct (Subnet_fuel_step lf 0 stop Hs Ht) as (k & Hk & Hk0 & _ & C);
        [unfold U32.in_range in Ht; lia|assumption|].
      destruct C as [[_ C]|[(_ & _ & _ & C)|(_ & C & _)]].
      * eexists. apply C.
      * eexists. apply C.
      * exfalso. apply C. apply Z.mod_0_l.
        apply Z.pow_nonzero; lia.
  - destruct (Z.lt_trichotomy start stop) as [L|[E|G]].
    + destruct (Subnet_fuel_step lf start stop Hs Ht L Hlf) as
          (k & Hk & Hk0 & HB & C).
      cbv zeta in HB, C.
      destruct C as [[_ C]|[(_ & _ & _ & C)|(Hlt & Hodd & C)]].
      * eexists. apply C.
      * eexists. apply C.
      * assert (Hjk : j <= k).
        { destruct (Z_lt_le_dec k j) as [Lk|Lk]; [|exact Lk].
          exfalso. apply Hodd.
          apply (pow2_divide_mod start j (k + 1)); [lia|assumption]. }
        assert (Hk32 : k < 32).
        { destruct (Z.eq_dec k 32) as [->|]; [|lia]. exfalso.
          unfold U32.in_range, U32.modulus in *. lia. }
        pose proof (pow2_bounds k Hk) as Pk.
        destruct (IH (j + 1) (start + 2 ^ k) stop) as [r Hr];
          try assumption; try lia.
        { unfold U32.in_range in *. lia. }
        { apply (pow2_divide_mod _ (k + 1) (j + 1)); [lia|].
          apply next_start_aligned; [lia|assumption|assumption]. }
        rewrite C, Hr.
        destruct r as [next [err|]]; eexists; reflexivity.
    + subst stop. eexists. apply Subnet_fuel_single.
    + eexists. apply Subnet_fuel_backwards. lia.
Qed.

Lemma Subnet_fuel_total (start stop : Z) :
  U32.in_range start -> U32.in_range stop ->
  exists r, forall lf d,
      (33 <= lf)%nat -> (33 <= d)%nat -> Subnet_fuel lf d start stop = Some r.
Proof.
  intros Hs Ht.
  destruct (Subnet_fuel_depth 33 32 0 start stop) as [r Hr];
    try assumption; try lia.
  { change (2 ^ 0) with 1. apply Z.mod_1_r. }
  exists r. intros lf d Hlf Hd.
  apply (Subnet_fuel_mono 33 33); assumption.
Qed.

(** C8. [Subnet] terminates on every pair of inputs, and its recursion
    never nests more than 33 calls: with room for 33 nested calls (and for
    the at most 33 tests of the alignment loop) the model returns a
    result, the same with any larger bounds. *)
Theorem Subnet_terminates_depth_33 (start stop : Z) :
  U32.in_range start -> U32.in_range stop ->
  exists r,
    Subnet start stop = Some r /\
    forall lf d,
      (33 <= lf)%nat -> (33 <= d)%nat -> Subnet_fuel lf d start stop = Some r.
Proof.
  intros Hs Ht. destruct (Subnet_fuel_total start stop Hs Ht) as [r Hr].
  exists r. split; [apply Hr; lia|exact Hr].
Qed.

Lemma Subnet_terminates_depth_33_witness :
  exists r,
    Subnet 1 4294967295 = Some r /\
    forall lf d,
      (33 <= lf)%nat -> (33 <= d)%nat ->
      Subnet_fuel lf d 1 4294967295 = Some r.
Proof.
  apply (Subnet_terminates_depth_33 1 4294967295);
    u32_range.
Defined.

(** ** The blocks of a successful [Subnet] *)

Lemma cidrBlock_aligned (b : Ipv4) : cidrBlock b -> Network b = Addr b.
Proof.
  intros (Ha & k & Hk & Hm & Hal). destruct b as [a m]. cbn [Addr Mask] in *.
  subst m. apply aligned_iff; assumption.
Qed.

Lemma cidrBlock_contiguous (b : Ipv4) : cidrBlock b -> IsContiguous b = true.
Proof.
  intros (Ha & k & Hk & Hm & Hal). destruct b as [a m]. cbn [Addr Mask] in *.
  subst m. apply IsContiguous_prefixMask; assumption.
Qed.

Lemma cidrBlock_mask_in_range (b : Ipv4) :
  cidrBlock b -> U32.in_range (Mask b).
Proof.
  intros (Ha & k & Hk & Hm & Hal). rewrite Hm.
  apply prefixMask_in_range; assumption.
Qed.

Lemma cidrBlock_single (a : Z) :
  U32.in_range a -> cidrBlock (mkIpv4 a TwoFiveFive).
Proof.
  intros Ha. split; [exact Ha|]. exists 0. cbn [Addr Mask].
  repeat split; try lia; try reflexivity. apply Z.mod_1_r.
Qed.

Lemma Broadcast_single (a : Z) :
  U32.in_range a -> Broadcast (mkIpv4 a TwoFiveFive) = a.
Proof.
  intros Ha. change TwoFiveFive with (prefixMask 0).
  rewrite Broadcast_prefixMask by (try assumption; lia).
  change (2 ^ 0) with 1. rewrite Z.mod_1_r. lia.
Qed.


Lemma chained_cons (b : Ipv4) (rest : list Ipv4) (start stop : Z) :
  Addr b = start -> chained rest (Broadcast b + 1) stop ->
  chained (b :: rest) start stop.
Proof.
  intros Ha Hr. split; [exact Ha|].
  destruct rest; [destruct Hr|exact Hr].
Qed.

Lemma Subnet_fuel_blocks (lf : nat) (d : nat) :
  forall start stop res,
    (32 < lf)%nat -> U32.in_range start -> U32.in_range stop ->
    Subnet_fuel lf d start stop = Some (res, None) ->
    chained res start stop /\ Forall cidrBlock res.
Proof.
  induction d as [|d IH]; intros start stop res Hlf Hs Ht H; [discriminate|].
  destruct (Z.lt_trichotomy start stop) as [L|[E|G]].
  - destruct (Subnet_fuel_step lf start stop Hs Ht L Hlf) as
        (k & Hk & Hk0 & HB & C).
    cbv zeta in HB, C.
    assert (Hlo : cidrBlock (mkIpv4 start (prefixMask k))).
    { split; [exact Hs|]. exists k. cbn [Addr Mask]. auto. }
    destruct C as [[Heq C]|[(_ & _ & _ & C)|(Hlt & Hodd & C)]];
      rewrite C in H.
    + injection H as <-. split; [|constructor; [exact Hlo|constructor]].
      split; [reflexivity|exact Heq].
    + discriminate.
    + destruct (Subnet_fuel lf d (start + 2 ^ k) stop) as [[next [err|]]|]
        eqn:R; try discriminate.
      injection H as <-.
      pose proof (pow2_bounds k Hk) as Pk.
      destruct (IH (start + 2 ^ k) stop next) as [Hch Hall];
        try assumption.
      { unfold U32.in_range in *. lia. }
      split; [|constructor; assumption].
      apply chained_cons; [reflexivity|].
      rewrite HB. replace (start + 2 ^ k - 1 + 1) with (start + 2 ^ k) by lia.
      exact Hch.
  - subst stop. rewrite Subnet_fuel_single in H. injection H as <-.
    split.
    + split; [reflexivity|]. apply Broadcast_single. assumption.
    + constructor; [apply cidrBlock_single; assumption|constructor].
  - rewrite Subnet_fuel_backwards in H by lia. discriminate.
Qed.

Lemma chained_hd (l : list Ipv4) (start stop : Z) :
  chained l start stop -> exists b, hd_error l = Some b /\ Addr b = start.
Proof.
  destruct l as [|b rest]; [intros []|]. intros [Ha _].
  exists b. split; [reflexivity|exact Ha].
Qed.

Lemma chained_last (l : list Ipv4) :
  forall start stop dflt,
    chained l start stop -> Broadcast (last l dflt) = stop.
Proof.
  induction l as [|b rest IH]; intros start stop dflt H; [destruct H|].
  destruct H as [_ H]. destruct rest as [|b' rest'].
  - exact H.
  - change (last (b :: b' :: rest') dflt) with (last (b' :: rest') dflt).
    apply (IH _ _ _ H).
Qed.

Lemma chained_consecutive (l : list Ipv4) :
  forall start stop i b b',
    chained l start stop ->
    nth_error l i = Some b -> nth_error l (S i) = Some b' ->
    Addr b' = Broadcast b + 1.
Proof.
  induction l as [|c rest IH]; intros start stop i b b' H Hb Hb';
    [destruct H|].
  destruct H as [_ H]. destruct rest as [|c' rest'].
  - destruct i; discriminate.
  - destruct i as [|i].
    + cbn in Hb, Hb'. injection Hb as <-. injection Hb' as <-.
      destruct H as [H _]. exact H.
    + apply (IH _ _ i b b' H); assumption.
Qed.

(** C10. Whenever [Subnet(start, stop)] returns without error, every
    block [b] of the result has [b.Addr & b.Mask == b.Addr] and a
    contiguous mask; the first block's address is [start], each next
    block's address is the previous block's [Broadcast()] plus one, and the
    last block's [Broadcast()] is [stop]. *)
Theorem Subnet_success_blocks (lf d : nat) (start stop : Z) (res : list Ipv4) :
  U32.in_range start -> U32.in_range stop ->
  Subnet_fuel lf d start stop = Some (res, None) ->
  Forall (fun b => Z.land (Addr b) (Mask b) = Addr b /\
                   IsContiguous b = true) res /\
  (exists b, hd_error res = Some b /\ Addr b = start) /\
  (forall i b b',
      nth_error res i = Some b -> nth_error res (S i) = Some b' ->
      Addr b' = Broadcast b + 1) /\
  Broadcast (last res (mkIpv4 0 0)) = stop.
Proof.
  intros Hs Ht H.
  apply (Subnet_fuel_mono d lf (Nat.max lf 33) d) in H; try lia.
  apply Subnet_fuel_blocks in H; try assumption; try lia.
  destruct H as [Hch Hall]. split; [|split; [|split]].
  - eapply Forall_impl; [|exact Hall]. intros b Hb. split.
    + rewrite Z.land_comm. apply cidrBlock_aligned. exact Hb.
    + apply cidrBlock_contiguous. exact Hb.
  - eapply chained_hd. exact Hch.
  - intros i b b'. eapply chained_consecutive. exact Hch.
  - eapply chained_last. exact Hch.
Qed.

Lemma Subnet_success_blocks_witness :
  Forall (fun b => Z.land (Addr b) (Mask b) = Addr b /\
                   IsContiguous b = true)
         [mkIpv4 1 4294967295; mkIpv4 2 4294967294] /\
  (exists b, hd_error [mkIpv4 1 4294967295; mkIpv4 2 4294967294] = Some b /\
             Addr b = 1) /\
  (forall i b b',
      nth_error [mkIpv4 1 4294967295; mkIpv4 2 4294967294] i = Some b ->
      nth_error [mkIpv4 1 4294967295; mkIpv4 2 4294967294] (S i) = Some b' ->
      Addr b' = Broadcast b + 1) /\
  Broadcast (last [mkIpv4 1 4294967295; mkIpv4 2 4294967294] (mkIpv4 0 0)) = 3.
Proof.
  apply (Subnet_success_blocks 33 33 1 3).
  - u32_range.
  - u32_range.
  - reflexivity.
Defined.

(** ** The overshoot of [Subnet] *)

(** C2. The branch of [Subnet] taken when the broadcast address of the
    emitted block exceeds [stop] is meant to be dead for [start <= stop].
    It is not: for the range from 0 to 2 the candidate block 0.0.0.0/30
    already starts at [start], is emitted as it is, and ends at 3. *)
Theorem Subnet_overshoot_reached :
  U32.in_range 0 /\ U32.in_range 2 /\ 0 <= 2 /\
  Subnet 0 2 = Some ([mkIpv4 0 4294967292], Some "Internal Error"%string) /\
  Broadcast (mkIpv4 0 4294967292) = 3.
Proof.
  repeat split; try reflexivity; try discriminate.
Qed.

(** C1. For [start <= stop], [Subnet] is meant to succeed with the
    shortest run of aligned blocks that tile [[start, stop]].  For the
    range from 0 to 2 such a run exists, 0.0.0.0/31 then 0.0.0.2/32, but
    [Subnet] fails with its internal error and the block 0.0.0.0/30. *)
Theorem Subnet_fails_on_0_2 :
  0 <= 2 /\
  (exists err, Subnet 0 2 = Some ([mkIpv4 0 4294967292], Some err)) /\
  chained [mkIpv4 0 4294967294; mkIpv4 2 4294967295] 0 2 /\
  cidrBlock (mkIpv4 0 4294967294) /\ cidrBlock (mkIpv4 2 4294967295).
Proof.
  split; [lia|]. split; [eexists; reflexivity|].
  split; [repeat split|].
  split.
  - split; [u32_range|].
    exists 1. repeat split; try lia; reflexivity.
  - split; [u32_range|].
    exists 0. repeat split; try lia; reflexivity.
Qed.

(** ** The direction of the alignment loop *)

(** The claim that the loop only ever widens the candidate block fails:
    for the range from 1 to 3 the candidate is /30 and the loop ends with
    /32, which fixes bits that the candidate leaves free. *)
Lemma alignLoop_widens_counterexample :
  ~ (forall start stop lo',
        U32.in_range start -> U32.in_range stop -> start < stop ->
        let lo := candidateLoop 33 0 (Z.lxor start stop) (mkIpv4 start 0) in
        alignLoop 33 lo = Some lo' ->
        lessRestrictive (Mask lo') (Mask lo)).
Proof.
  intros H.
  specialize (H 1 3 (mkIpv4 1 4294967295)).
  cbv zeta in H.
  assert (C : lessRestrictive 4294967295 4294967292).
  { apply H; try reflexivity; u32_range. }
  discriminate C.
Qed.

(** C5, as the code has it. Every update [mask = 0x80000000 + (mask >> 1)]
    narrows the block: it turns the prefix mask with [k] free bits into the
    one with [k - 1], so the candidate mask of step 3 is no more
    restrictive than any later mask, and the mask the loop ends with has
    [network(start, mask) == start].  The loop terminates for every
    [start] and every mask [m], after at most 33 tests. *)
Theorem alignLoop_narrows_and_terminates (start stop m : Z) :
  U32.in_range start -> U32.in_range stop -> U32.in_range m -> start < stop ->
  (exists lo',
      (forall fuel, (33 <= fuel)%nat ->
                    alignLoop fuel (mkIpv4 start m) = Some lo') /\
      Addr lo' = start /\ Network lo' = start) /\
  (forall k, 1 <= k <= 32 -> nextMask (prefixMask k) = prefixMask (k - 1)) /\
  (exists w k,
      0 <= k <= w /\ w <= 32 /\
      candidateLoop 33 0 (Z.lxor start stop) (mkIpv4 start 0) =
      mkIpv4 start (prefixMask w) /\
      (forall fuel, (33 <= fuel)%nat ->
                    alignLoop fuel (mkIpv4 start (prefixMask w)) =
                    Some (mkIpv4 start (prefixMask k))) /\
      lessRestrictive (prefixMask w) (prefixMask k) /\
      Network (mkIpv4 start (prefixMask k)) = start).
Proof.
  intros Hs Ht Hm Hlt. split; [|split].
  - destruct (alignLoop_total 32 33 (mkIpv4 start m)) as
        (lo' & Heq & HA & HN & _); cbn [Addr Mask]; try assumption; try lia.
    { unfold prefixMask, U32.in_range, U32.modulus in *.
      change (2 ^ Z.of_nat 32) with (2 ^ 32). lia. }
    exists lo'. cbn [Addr] in HA. split; [|split; congruence].
    intros fuel Hf. apply (alignLoop_fuel_mono 33); assumption.
  - apply nextMask_prefixMask.
  - destruct (candidate_spec start stop (mkIpv4 start 0) Hs Ht Hlt) as
        (w & Hw & _ & _ & Hcand).
    destruct (alignLoop_prefixMask (Z.to_nat w) 33 start) as
        (k & Hk & Hal & _ & Halign); try lia; try assumption.
    rewrite Z2Nat.id in * by lia.
    exists w, k. split; [lia|]. split; [lia|]. split; [exact Hcand|].
    split; [|split].
    + intros fuel Hf. apply (alignLoop_fuel_mono 33); assumption.
    + apply prefixMask_lessRestrictive; lia.
    + apply aligned_iff; [assumption|lia|assumption].
Qed.

Lemma alignLoop_narrows_and_terminates_witness :
  exists lo',
    (forall fuel, (33 <= fuel)%nat ->
                  alignLoop fuel (mkIpv4 1 0) = Some lo') /\
    Addr lo' = 1 /\ Network lo' = 1.
Proof.
  apply (alignLoop_narrows_and_terminates 1 3 0);
    u32_range.
Defined.

(** ** Contiguous masks are the prefix masks *)

Lemma land_bit_eqb (m n : Z) :
  0 <= n < 32 -> (Z.land m (U32.shl 1 n) =? 0) = negb (Z.testbit m n).
Proof.
  intros Hn.
  assert (E : U32.shl 1 n = 2 ^ n).
  { unfold U32.shl, U32.wrap. rewrite Z.shiftl_mul_pow2, Z.mul_1_l by lia.
    apply Z.mod_small. split; [apply Z.pow_nonneg; lia|].
    unfold U32.modulus. apply Z.pow_lt_mono_r; lia. }
  rewrite E.
  destruct (Z.testbit m n) eqn:B; cbn [negb].
  - apply Z.eqb_neq. intros C.
    apply (f_equal (fun z => Z.testbit z n)) in C.
    rewrite Z.land_spec, Z.pow2_bits_true, B, Z.bits_0 in C by lia.
    discriminate.
  - apply Z.eqb_eq. apply Z.bits_inj'; intros i Hi.
    rewrite Z.land_spec, Z.pow2_bits_eqb, Z.bits_0 by lia.
    destruct (Z.eqb_spec n i) as [->|]; [|apply andb_false_r].
    rewrite B. reflexivity.
Qed.

Lemma contiguousLoop_spec (iters : nat) :
  forall n f m,
    0 <= n -> n + Z.of_nat iters = 32 ->
    contiguousLoop iters n f m = true ->
    exists k, n <= k <= 32 /\ (f = true -> k = n) /\
              forall i, n <= i < 32 -> Z.testbit m i = (k <=? i).
Proof.
  induction iters as [|iters IH]; intros n f m Hn Hi H.
  - exists 32. repeat split; try lia.
  - cbn [contiguousLoop] in H. rewrite land_bit_eqb in H by lia.
    rewrite negb_involutive in H.
    destruct (Z.testbit m n) eqn:B; cbn [negb andb] in H.
    + apply IH in H; try lia.
      destruct H as (k & Hk & Hf & Hbits).
      rewrite (Hf eq_refl) in *.
      exists n. repeat split; try lia.
      intros i Hin. destruct (Z.eq_dec i n) as [->|Hne].
      * rewrite B. symmetry. apply Z.leb_le. lia.
      * rewrite Hbits by lia.
        destruct (Z.leb_spec (n + 1) i), (Z.leb_spec n i);
          try reflexivity; lia.
    + destruct f; cbn [andb] in H; [discriminate|].
      apply IH in H; try lia.
      destruct H as (k & Hk & _ & Hbits).
      exists k. repeat split; try lia; try discriminate.
      intros i Hin. destruct (Z.eq_dec i n) as [->|Hne].
      * rewrite B. symmetry. apply Z.leb_gt. lia.
      * apply Hbits. lia.
Qed.

Lemma IsContiguous_inv (b : Ipv4) :
  U32.in_range (Mask b) -> IsContiguous b = true ->
  exists k, 0 <= k <= 32 /\ Mask b = prefixMask k.
Proof.
  intros Hm H. unfold IsContiguous in H.
  apply contiguousLoop_spec in H; try lia.
  destruct H as (k & Hk & _ & Hbits).
  exists k. split; [exact Hk|].
  apply Z.bits_inj'; intros i Hi.
  rewrite prefixMask_testbit by assumption.
  destruct (Z.ltb_spec i 32).
  - rewrite andb_true_r. apply Hbits. lia.
  - rewrite andb_false_r. apply testbit_high; assumption.
Qed.

(** ** [Subnet] on the ranges that [Overlap] gives it *)

Lemma mod_ones_le (x h k : Z) :
  0 <= k <= h -> x mod 2 ^ h = 2 ^ h - 1 -> x mod 2 ^ k = 2 ^ k - 1.
Proof.
  intros Hk H.
  assert (Hh : 0 < 2 ^ h) by (apply Z.pow_pos_nonneg; lia).
  assert (Hk' : 0 < 2 ^ k) by (apply Z.pow_pos_nonneg; lia).
  assert (E : (x + 1) mod 2 ^ k = 0).
  { apply (pow2_divide_mod _ h k); [assumption|].
    pose proof (Z.div_mod x (2 ^ h) ltac:(lia)) as D.
    replace (x + 1) with ((x / 2 ^ h + 1) * 2 ^ h) by lia.
    apply Z.mod_mul. lia. }
  pose proof (Z.div_mod (x + 1) (2 ^ k) ltac:(lia)) as D. rewrite E in D.
  symmetry. apply (Z.mod_unique x (2 ^ k) ((x + 1) / 2 ^ k - 1)); lia.
Qed.

(** On a range that ends where its last [2 ^ h]-block ends and lies
    within that block, [Subnet] does not fail. *)
Lemma Subnet_fuel_saturated (lf : nat) (d : nat) :
  forall start stop h r,
    (32 < lf)%nat -> U32.in_range start -> U32.in_range stop ->
    0 <= h <= 32 -> start <= stop ->
    start / 2 ^ h = stop / 2 ^ h -> stop mod 2 ^ h = 2 ^ h - 1 ->
    Subnet_fuel lf d start stop = Some r -> snd r = None.
Proof.
  induction d as [|d IH]; intros start stop h r Hlf Hs Ht Hh Hle Hag Hsat H;
    [discriminate|].
  destruct (Z.eq_dec start stop) as [<-|Hne].
  - rewrite Subnet_fuel_single in H. injection H as <-. reflexivity.
  - destruct (Subnet_fuel_step lf start stop Hs Ht ltac:(lia) Hlf) as
        (k & Hk & Hk0 & HB & C).
    cbv zeta in HB, C. rewrite HB in C.
    pose proof (pow2_bounds k Hk) as Pk.
    destruct C as [[_ C]|[(Hgt & Hagk & Hmin & _)|(Hlt & _ & C)]].
    + rewrite C in H. injection H as <-. reflexivity.
    + exfalso.
      pose proof (Hmin h ltac:(lia) Hag) as Hkh.
      pose proof (mod_ones_le stop h k ltac:(lia) Hsat) as Hsk.
      pose proof (Z.div_mod start (2 ^ k) ltac:(lia)) as D1.
      pose proof (Z.div_mod stop (2 ^ k) ltac:(lia)) as D2.
      rewrite Hagk in D1. lia.
    + rewrite C in H.
      assert (Hh' : 0 < 2 ^ h) by (apply Z.pow_pos_nonneg; lia).
      destruct (Subnet_fuel lf d (start + 2 ^ k) stop) as [r'|] eqn:R;
        [|discriminate].
      assert (N : snd r' = None).
      { apply (IH (start + 2 ^ k) stop h r'); try assumption; try lia.
        - unfold U32.in_range in *. lia.
        - pose proof (Z.div_le_mono start (start + 2 ^ k) (2 ^ h)
                                    ltac:(lia) ltac:(lia)).
          pose proof (Z.div_le_mono (start + 2 ^ k) stop (2 ^ h)
                                    ltac:(lia) ltac:(lia)).
          lia. }
      destruct r' as [next [err|]]; [discriminate|].
      injection H as <-. reflexivity.
Qed.

Lemma chained_le (l : list Ipv4) :
  forall start stop,
    Forall (fun b => Addr b <= Broadcast b) l ->
    chained l start stop -> start <= stop.
Proof.
  induction l as [|b rest IH]; intros start stop Hall H; [destruct H|].
  destruct H as [Ha H]. inversion Hall as [|? ? Hb Hrest]; subst.
  destruct rest as [|c rest'].
  - lia.
  - apply IH in H; [lia|assumption].
Qed.

Lemma chained_covers (l : list Ipv4) :
  forall start stop,
    Forall (fun b => Addr b <= Broadcast b) l ->
    chained l start stop -> covers l start stop.
Proof.
  induction l as [|b rest IH]; intros start stop Hall H; [destruct H|].
  pose proof H as [Ha H'].
  inversion Hall as [|? ? Hb Hrest]; subst.
  destruct rest as [|c rest'].
  - intros x. split.
    + intros Hx. exists b. split; [left; reflexivity|lia].
    + intros (b' & [<-|[]] & Hx). lia.
  - pose proof (chained_le _ _ _ Hrest H') as Hle.
    pose proof (IH _ _ Hrest H') as Hc.
    intros x. split.
    + intros Hx. destruct (Z_le_gt_dec x (Broadcast b)) as [L|G].
      * exists b. split; [left; reflexivity|lia].
      * destruct (proj1 (Hc x) ltac:(lia)) as (b' & Hin & Hb').
        exists b'. split; [right; exact Hin|exact Hb'].
    + intros (b' & [<-|Hin] & Hx); [lia|].
      assert (Broadcast b + 1 <= x <= stop); [|lia].
      apply Hc. exists b'. split; assumption.
Qed.

Lemma cidrBlock_ordered (b : Ipv4) : cidrBlock b -> Addr b <= Broadcast b.
Proof.
  intros Hb. apply Broadcast_ge_Addr;
    [apply Hb|apply cidrBlock_mask_in_range; exact Hb].
Qed.

(** ** [Overlap] *)

Lemma orderPair_cases (n1 n2 : Ipv4) :
  (n1 = n2 /\ orderPair n1 n2 = inr [n1]) \/
  (n1 <> n2 /\
   exists a b, orderPair n1 n2 = inl (a, b) /\ Addr a <= Addr b /\
               ((a = n1 /\ b = n2) \/ (a = n2 /\ b = n1))).
Proof.
  unfold orderPair. rewrite !Z.gtb_ltb.
  destruct (Z.ltb_spec (Addr n1) (Addr n2)) as [L1|L1].
  { right. split; [intros ->; lia|]. exists n1, n2.
    split; [reflexivity|]. split; [lia|]. left; split; reflexivity. }
  destruct (Z.ltb_spec (Addr n2) (Addr n1)) as [L2|L2].
  { right. split; [intros ->; lia|]. exists n2, n1.
    split; [reflexivity|]. split; [lia|]. right; split; reflexivity. }
  destruct (Z.ltb_spec (Mask n2) (Mask n1)) as [L3|L3].
  { right. split; [intros ->; lia|]. exists n1, n2.
    split; [reflexivity|]. split; [lia|]. left; split; reflexivity. }
  destruct (Z.ltb_spec (Mask n1) (Mask n2)) as [L4|L4].
  { right. split; [intros ->; lia|]. exists n2, n1.
    split; [reflexivity|]. split; [lia|]. right; split; reflexivity. }
  left. destruct n1 as [a1 m1], n2 as [a2 m2]. cbn [Addr Mask] in *.
  assert (a1 = a2) by lia. assert (m1 = m2) by lia. subst.
  unfold Ipv4_eqb. cbn [Addr Mask]. rewrite !Z.eqb_refl.
  split; reflexivity.
Qed.

Lemma min_by_ltb (x y : Z) : (if x <? y then x else y) = Z.min x y.
Proof. destruct (Z.ltb_spec x y); lia. Qed.

(** The range that [Overlap] passes to [Subnet] ends at the end of a
    block of one of its two arguments and lies within that block. *)
Lemma Overlap_range_saturated (a b : Ipv4) :
  U32.in_range (Addr a) -> U32.in_range (Mask a) ->
  U32.in_range (Addr b) -> U32.in_range (Mask b) ->
  IsContiguous a = true -> IsContiguous b = true ->
  Addr a <= Addr b -> Addr b <= Z.min (Broadcast a) (Broadcast b) ->
  exists h, 0 <= h <= 32 /\
            Addr b / 2 ^ h = Z.min (Broadcast a) (Broadcast b) / 2 ^ h /\
            Z.min (Broadcast a) (Broadcast b) mod 2 ^ h = 2 ^ h - 1.
Proof.
  intros Haa Hma Hab Hmb Hca Hcb Hle Hne.
  destruct (IsContiguous_inv a Hma Hca) as (ka & Hka & Ea).
  destruct (IsContiguous_inv b Hmb Hcb) as (kb & Hkb & Eb).
  destruct a as [aa ma], b as [ab mb]. cbn [Addr Mask] in *. subst ma mb.
  rewrite !Broadcast_prefixMask in * by assumption.
  pose proof (pow2_bounds ka Hka) as Pa.
  pose proof (pow2_bounds kb Hkb) as Pb.
  pose proof (Z.div_mod aa (2 ^ ka) ltac:(lia)) as Da.
  pose proof (Z.div_mod ab (2 ^ kb) ltac:(lia)) as Db.
  destruct (Z.min_spec (aa - aa mod 2 ^ ka + 2 ^ ka - 1)
                       (ab - ab mod 2 ^ kb + 2 ^ kb - 1)) as [[L E]|[L E]];
    rewrite E in *.
  - exists ka. split; [assumption|].
    assert (Q : (aa - aa mod 2 ^ ka + 2 ^ ka - 1) / 2 ^ ka = aa / 2 ^ ka).
    { symmetry. apply (Z.div_unique _ _ _ (2 ^ ka - 1)); lia. }
    split.
    + rewrite Q.
      pose proof (Z.div_le_mono aa ab (2 ^ ka) ltac:(lia) Hle).
      pose proof (Z.div_le_mono ab _ (2 ^ ka) ltac:(lia) Hne).
      lia.
    + symmetry. apply (Z.mod_unique _ _ (aa / 2 ^ ka)); lia.
  - exists kb. split; [assumption|]. split.
    + apply (Z.div_unique _ _ _ (2 ^ kb - 1)); lia.
    + symmetry. apply (Z.mod_unique _ _ (ab / 2 ^ kb)); lia.
Qed.

Lemma Overlap_fuel_ordered (n1 n2 a b : Ipv4) :
  orderPair n1 n2 = inl (a, b) ->
  U32.in_range (Addr a) -> U32.in_range (Mask a) ->
  U32.in_range (Addr b) -> U32.in_range (Mask b) ->
  Addr a <= Addr b ->
  let start := Addr b in
  let stop := Z.min (Broadcast a) (Broadcast b) in
  (stop < start -> forall lf d, Overlap_fuel lf d n1 n2 = Some []) /\
  (IsContiguous a = true -> IsContiguous b = true -> start <= stop ->
   exists res,
     (forall lf d, (33 <= lf)%nat -> (33 <= d)%nat ->
                   Overlap_fuel lf d n1 n2 = Some res) /\
     chained res start stop /\ Forall cidrBlock res).
Proof.
  intros Ho Haa Hma Hab Hmb Hle. cbv zeta.
  pose proof (Broadcast_in_range a Haa Hma) as HBa.
  pose proof (Broadcast_in_range b Hab Hmb) as HBb.
  unfold Overlap_fuel. rewrite Ho, min_by_ltb, Z.gtb_ltb.
  split.
  - intros Hlt lf d.
    replace (Z.min (Broadcast a) (Broadcast b) <? Addr b) with true
      by (symmetry; apply Z.ltb_lt; exact Hlt).
    reflexivity.
  - intros Hca Hcb Hne.
    replace (Z.min (Broadcast a) (Broadcast b) <? Addr b) with false
      by (symmetry; apply Z.ltb_ge; exact Hne).
    replace (Broadcast a <? Addr b) with false
      by (symmetry; apply Z.ltb_ge; lia).
    cbn [orb].
    assert (Hstop : U32.in_range (Z.min (Broadcast a) (Broadcast b))).
    { unfold U32.in_range in *. lia. }
    destruct (Subnet_fuel_total (Addr b) _ Hab Hstop) as [r Hr].
    destruct (Overlap_range_saturated a b) as (h & Hh & Hag & Hsat);
      try assumption.
    pose proof (Subnet_fuel_saturated 33 33 _ _ h r ltac:(lia) Hab Hstop
                  Hh Hne Hag Hsat (Hr 33%nat 33%nat ltac:(lia) ltac:(lia)))
      as Hnone.
    destruct r as [res err]. cbn [snd] in Hnone. subst err.
    exists res. split.
    + intros lf d Hlf Hd. rewrite (Hr lf d Hlf Hd). reflexivity.
    + apply (Subnet_fuel_blocks 33 33); try assumption; try lia.
      apply Hr; lia.
Qed.

(** The claim that [Overlap] covers the intersection of the
    [[Network, Broadcast]] intervals fails: 0.0.0.1/30 and 0.0.0.0/30 both
    span 0 to 3, and [Overlap] returns the blocks from 1 to 3. *)
Lemma Overlap_network_interval_counterexample :
  ~ (forall n1 n2 res,
        U32.in_range (Addr n1) -> U32.in_range (Mask n1) ->
        U32.in_range (Addr n2) -> U32.in_range (Mask n2) ->
        Overlap n1 n2 = Some res ->
        let lo := Z.max (Network n1) (Network n2) in
        let hi := Z.min (Broadcast n1) (Broadcast n2) in
        (hi < lo -> res = []) /\ (lo <= hi -> coversNet res lo hi)).
Proof.
  intros H.
  specialize (H (mkIpv4 1 4294967292) (mkIpv4 0 4294967292)
                [mkIpv4 1 4294967295; mkIpv4 2 4294967294]).
  cbv zeta in H. cbn [Addr Mask] in H.
  assert (R1 : U32.in_range 1) by u32_range.
  assert (R0 : U32.in_range 0) by u32_range.
  assert (Rm : U32.in_range 4294967292)
    by u32_range.
  destruct (H R1 Rm R0 Rm eq_refl) as [_ H'].
  clear H. rename H' into H.
  assert (L : Z.max (Network (mkIpv4 1 4294967292))
                    (Network (mkIpv4 0 4294967292)) <=
              Z.min (Broadcast (mkIpv4 1 4294967292))
                    (Broadcast (mkIpv4 0 4294967292)))
    by (vm_compute; discriminate).
  specialize (H L 0).
  destruct (proj1 H) as (b & Hin & Hb).
  { vm_compute. split; discriminate. }
  destruct Hin as [<-|[<-|[]]]; vm_compute in Hb; destruct Hb as [Hb _];
    apply Hb; reflexivity.
Qed.

(** C4, as the code has it. [Overlap(n1, n2)] works on the intervals from
    the stored address to the broadcast address, [[Addr, Broadcast()]]:
    it returns the empty sequence when these are disjoint, and for
    contiguous masks otherwise a run of blocks that tile their
    intersection exactly; they are aligned CIDR blocks unless the two
    arguments are equal, when the result is [n1] itself (whatever the
    masks). *)
Theorem Overlap_covers_intersection (n1 n2 : Ipv4) :
  U32.in_range (Addr n1) -> U32.in_range (Mask n1) ->
  U32.in_range (Addr n2) -> U32.in_range (Mask n2) ->
  let lo := Z.max (Addr n1) (Addr n2) in
  let hi := Z.min (Broadcast n1) (Broadcast n2) in
  (hi < lo -> forall lf d, Overlap_fuel lf d n1 n2 = Some []) /\
  (IsContiguous n1 = true -> IsContiguous n2 = true -> lo <= hi ->
   exists res,
     Overlap n1 n2 = Some res /\
     (forall lf d, (33 <= lf)%nat -> (33 <= d)%nat ->
                   Overlap_fuel lf d n1 n2 = Some res) /\
     chained res lo hi /\ covers res lo hi /\
     (n1 <> n2 ->
      Forall (fun b => Z.land (Addr b) (Mask b) = Addr b /\
                       IsContiguous b = true) res) /\
     (n1 = n2 -> res = [n1])) /\
  (n1 = n2 -> forall lf d, Overlap_fuel lf d n1 n2 = Some [n1]).
Proof.
  intros Ha1 Hm1 Ha2 Hm2. cbv zeta.
  pose proof (Broadcast_ge_Addr n1 Ha1 Hm1) as G1.
  pose proof (Broadcast_ge_Addr n2 Ha2 Hm2) as G2.
  destruct (orderPair_cases n1 n2) as [[<- Ho]|(Hne & a & b & Ho & Hle & Hab)].
  - rewrite Z.max_id, Z.min_id. split; [lia|].
    unfold Overlap, Overlap_fuel. rewrite Ho.
    split; [|intros _ lf d; reflexivity].
    intros _ _ _. exists [n1].
    assert (Hch : chained [n1] (Addr n1) (Broadcast n1))
      by (split; reflexivity).
    split; [reflexivity|]. split; [reflexivity|]. split; [exact Hch|].
    split; [|split; [intros C; contradiction|intros _; reflexivity]].
    apply chained_covers; [|exact Hch].
    constructor; [exact G1|constructor].
  - assert (R : U32.in_range (Addr a) /\ U32.in_range (Mask a) /\
                U32.in_range (Addr b) /\ U32.in_range (Mask b) /\
                Z.max (Addr n1) (Addr n2) = Addr b /\
                Z.min (Broadcast n1) (Broadcast n2) =
                Z.min (Broadcast a) (Broadcast b) /\
                (IsContiguous n1 = true -> IsContiguous n2 = true ->
                 IsContiguous a = true /\ IsContiguous b = true)).
    { destruct Hab as [[-> ->]|[-> ->]];
        (split; [assumption|]); (split; [assumption|]);
        (split; [assumption|]); (split; [assumption|]);
        (split; [lia|]); (split; [lia|]); tauto. }
    destruct R as (Haa & Hma & Hab' & Hmb & Emax & Emin & Hc).
    rewrite Emax, Emin.
    destruct (Overlap_fuel_ordered n1 n2 a b Ho Haa Hma Hab' Hmb Hle) as
        [Hempty Hfull].
    split; [exact Hempty|].
    split; [|intros C; contradiction].
    intros Hc1 Hc2 Hnonempty.
    destruct (Hc Hc1 Hc2) as [Hca Hcb].
    destruct (Hfull Hca Hcb Hnonempty) as (res & Hres & Hch & Hall).
    exists res. split; [apply Hres; lia|]. split; [exact Hres|].
    split; [exact Hch|]. split; [|split].
    + apply chained_covers; [|exact Hch].
      eapply Forall_impl; [|exact Hall]. apply cidrBlock_ordered.
    + intros _. eapply Forall_impl; [|exact Hall]. intros c Hcb'. split.
      * rewrite Z.land_comm. apply cidrBlock_aligned. exact Hcb'.
      * apply cidrBlock_contiguous. exact Hcb'.
    + intros C. contradiction.
Qed.

Lemma Overlap_covers_intersection_witness :
  exists res,
    Overlap (mkIpv4 168432640 4294965248) (mkIpv4 168432640 4294967040) =
    Some res /\
    covers res 168432640 168432895.
Proof.
  assert (Ra : U32.in_range 168432640)
    by u32_range.
  assert (R21 : U32.in_range 4294965248)
    by u32_range.
  assert (R24 : U32.in_range 4294967040)
    by u32_range.
  destruct (Overlap_covers_intersection
              (mkIpv4 168432640 4294965248) (mkIpv4 168432640 4294967040)
              Ra R21 Ra R24) as (_ & H & _).
  destruct H as (res & H1 & _ & _ & H2 & _).
  - reflexivity.
  - reflexivity.
  - vm_compute. discriminate.
  - exists res. split; [exact H1|exact H2].
Defined.

(** ** Text conversion: the round trip *)

Lemma decimalTextOk_byte_nat (n : nat) :
  (n < 256)%nat -> decimalTextOk (Z.of_nat n) = true.
Proof.
  intros Hn.
  assert (H : forallb (fun i => decimalTextOk (Z.of_nat i)) (seq 0 256) = true)
    by (vm_compute; reflexivity).
  rewrite forallb_forall in H. apply H. apply in_seq. lia.
Qed.

Lemma decimalTextOk_byte (n : Z) :
  0 <= n <= 255 ->
  Atoi (Itoa n) = Some n /\
  noChar "."%char (Itoa n) = true /\ noChar "/"%char (Itoa n) = true.
Proof.
  intros Hn.
  pose proof (decimalTextOk_byte_nat (Z.to_nat n) ltac:(lia)) as H.
  rewrite Z2Nat.id in H by lia. unfold decimalTextOk in H.
  apply andb_true_iff in H. destruct H as [H H3].
  apply andb_true_iff in H. destruct H as [H1 H2].
  destruct (Atoi (Itoa n)) as [v|]; [|discriminate].
  apply Z.eqb_eq in H1. subst v. auto.
Qed.

Lemma noChar_app (c : ascii) (s t : string) :
  noChar c (s ++ t) = noChar c s && noChar c t.
Proof.
  induction s as [|c' s IH]; [reflexivity|].
  cbn [append noChar]. rewrite IH. apply andb_assoc.
Qed.

Lemma Split_noChar (sep : ascii) (s : string) :
  noChar sep s = true -> Split s sep = [s].
Proof.
  induction s as [|c s IH]; [reflexivity|].
  cbn [noChar Split]. intros H. apply andb_true_iff in H. destruct H as [H1 H2].
  apply negb_true_iff in H1. rewrite H1, (IH H2). reflexivity.
Qed.

Lemma Split_app (sep : ascii) (s t : string) :
  noChar sep s = true ->
  Split (s ++ String sep t) sep = s :: Split t sep.
Proof.
  induction s as [|c s IH]; intros H.
  - cbn [append Split]. rewrite Ascii.eqb_refl. reflexivity.
  - cbn [noChar] in H. apply andb_true_iff in H. destruct H as [H1 H2].
    apply negb_true_iff in H1.
    cbn [append Split]. rewrite H1, (IH H2). reflexivity.
Qed.

Lemma maskToString_prefixMask_nat (n : nat) :
  (n <= 32)%nat ->
  maskToString (prefixMask (Z.of_nat n)) = Itoa (32 - Z.of_nat n).
Proof.
  intros Hn.
  do 33 (destruct n as [|n]; [vm_compute; reflexivity|]).
  lia.
Qed.

Lemma maskToString_prefixMask (k : Z) :
  0 <= k <= 32 -> maskToString (prefixMask k) = Itoa (32 - k).
Proof.
  intros Hk. rewrite <- (Z2Nat.id k) by lia.
  apply maskToString_prefixMask_nat. lia.
Qed.

Lemma stringToMask_Itoa (k : Z) :
  0 <= k <= 32 -> stringToMask (Itoa (32 - k)) = (prefixMask k, None).
Proof.
  intros Hk. unfold stringToMask.
  destruct (decimalTextOk_byte (32 - k) ltac:(lia)) as (E & _ & _).
  rewrite E.
  replace ((32 - k <? 0) || (32 - k >? 32)) with false.
  - unfold U32.to_uint8. rewrite (Z.mod_small (32 - k)) by lia.
    replace (32 - (32 - k)) with k by lia.
    rewrite (Z.mod_small k) by lia.
    rewrite candidate_mask_value by assumption. reflexivity.
  - symmetry. apply orb_false_iff. split.
    + apply Z.ltb_ge. lia.
    + rewrite Z.gtb_ltb. apply Z.ltb_ge. lia.
Qed.

(** Disjoint bit ranges: [|] is [+]. *)
Lemma lor_high_low (hi lo n : Z) :
  0 <= n -> 0 <= lo < 2 ^ n -> Z.lor (hi * 2 ^ n) lo = hi * 2 ^ n + lo.
Proof.
  intros Hn Hlo.
  rewrite <- Z.add_lor_land.
  assert (E : Z.land (hi * 2 ^ n) lo = 0).
  { apply Z.bits_inj'; intros i Hi.
    rewrite Z.land_spec, Z.bits_0, <- Z.shiftl_mul_pow2 by assumption.
    destruct (Z.ltb_spec i n).
    - rewrite Z.shiftl_spec_low by assumption. reflexivity.
    - rewrite <- (Z.mod_small lo (2 ^ n)) by assumption.
      rewrite Z.mod_pow2_bits_high by lia. apply andb_false_r. }
  rewrite E. lia.
Qed.

Lemma shl_byte (b n : Z) :
  0 <= b <= 255 -> 0 <= n <= 24 -> U32.shl b n = b * 2 ^ n.
Proof.
  intros Hb Hn. unfold U32.shl, U32.wrap.
  rewrite Z.shiftl_mul_pow2 by lia.
  apply Z.mod_small.
  assert (0 < 2 ^ n <= 2 ^ 24)
    by (split; [apply Z.pow_pos_nonneg; lia|apply Z.pow_le_mono_r; lia]).
  unfold U32.modulus. change (2 ^ 32) with (256 * 2 ^ 24). nia.
Qed.

(** The four bytes of an address, put back together. *)
Lemma bytes_reassemble (a : Z) :
  U32.in_range a ->
  let b0 := U32.to_uint8 (U32.shr a 24) in
  let b1 := U32.to_uint8 (U32.shr a 16) in
  let b2 := U32.to_uint8 (U32.shr a 8) in
  let b3 := U32.to_uint8 a in
  (0 <= b0 <= 255 /\ 0 <= b1 <= 255 /\ 0 <= b2 <= 255 /\ 0 <= b3 <= 255) /\
  Z.lor (Z.lor (Z.lor (U32.shl b0 24) (U32.shl b1 16)) (U32.shl b2 8)) b3 = a.
Proof.
  intros Ha. cbv zeta. unfold U32.to_uint8, U32.shr.
  rewrite !Z.shiftr_div_pow2 by lia.
  change (2 ^ 24) with 16777216. change (2 ^ 16) with 65536.
  change (2 ^ 8) with 256.
  set (b0 := (a / 16777216) mod 256). set (b1 := (a / 65536) mod 256).
  set (b2 := (a / 256) mod 256). set (b3 := a mod 256).
  assert (R : (0 <= b0 <= 255 /\ 0 <= b1 <= 255 /\ 0 <= b2 <= 255 /\
               0 <= b3 <= 255) /\
              b0 * 16777216 + b1 * 65536 + b2 * 256 + b3 = a).
  { unfold U32.in_range, U32.modulus in Ha.
    change (2 ^ 32) with 4294967296 in Ha.
    subst b0 b1 b2 b3. Z.div_mod_to_equations. lia. }
  destruct R as [Rb Rsum]. split; [exact Rb|].
  rewrite !shl_byte by lia.
  rewrite (lor_high_low b0 (b1 * 2 ^ 16) 24);
    [|lia|change (2 ^ 24) with 16777216; change (2 ^ 16) with 65536; lia].
  replace (b0 * 2 ^ 24 + b1 * 2 ^ 16) with ((b0 * 2 ^ 8 + b1) * 2 ^ 16)
    by (change (2 ^ 24) with (2 ^ 8 * 2 ^ 16); ring).
  rewrite (lor_high_low _ (b2 * 2 ^ 8) 16);
    [|lia|change (2 ^ 16) with 65536; change (2 ^ 8) with 256; lia].
  replace ((b0 * 2 ^ 8 + b1) * 2 ^ 16 + b2 * 2 ^ 8)
    with (((b0 * 2 ^ 8 + b1) * 2 ^ 8 + b2) * 2 ^ 8)
    by (change (2 ^ 16) with (2 ^ 8 * 2 ^ 8); ring).
  rewrite (lor_high_low _ b3 8); [|lia|change (2 ^ 8) with 256; lia].
  change (2 ^ 8) with 256. lia.
Qed.

Lemma parseOctets_Itoa_cons (b : Z) (rest : list string) :
  0 <= b <= 255 ->
  parseOctets (Itoa b :: rest) =
  match parseOctets rest with
  | Some bs => Some (b :: bs)
  | None => None
  end.
Proof.
  intros Hb. cbn [parseOctets].
  destruct (decimalTextOk_byte b Hb) as (E & _ & _). rewrite E.
  replace ((b <? 0) || (b >? 255)) with false.
  - unfold U32.to_uint8. rewrite Z.mod_small by lia. reflexivity.
  - symmetry. apply orb_false_iff. split.
    + apply Z.ltb_ge. lia.
    + rewrite Z.gtb_ltb. apply Z.ltb_ge. lia.
Qed.

Lemma DottedDecimalToUint32_addrToString (a : Z) :
  U32.in_range a ->
  DottedDecimalToUint32 (addrToString a) = (a, None) /\
  noChar "/"%char (addrToString a) = true.
Proof.
  intros Ha.
  destruct (bytes_reassemble a Ha) as [(H0 & H1 & H2 & H3) E].
  cbv zeta in *. unfold addrToString, DottedDecimalToUint32.
  set (b0 := U32.to_uint8 (U32.shr a 24)) in *.
  set (b1 := U32.to_uint8 (U32.shr a 16)) in *.
  set (b2 := U32.to_uint8 (U32.shr a 8)) in *.
  set (b3 := U32.to_uint8 a) in *.
  destruct (decimalTextOk_byte b0 H0) as (_ & D0 & S0).
  destruct (decimalTextOk_byte b1 H1) as (_ & D1 & S1).
  destruct (decimalTextOk_byte b2 H2) as (_ & D2 & S2).
  destruct (decimalTextOk_byte b3 H3) as (_ & D3 & S3).
  split.
  - change (Itoa b0 ++ "." ++ Itoa b1 ++ "." ++ Itoa b2 ++ "." ++ Itoa b3)%string
      with (Itoa b0 ++ String "."%char
             (Itoa b1 ++ String "."%char
               (Itoa b2 ++ String "."%char (Itoa b3))))%string.
    rewrite (Split_app _ _ _ D0), (Split_app _ _ _ D1), (Split_app _ _ _ D2),
      (Split_noChar _ _ D3).
    cbn [List.length Nat.eqb negb].
    rewrite !parseOctets_Itoa_cons by assumption.
    cbn [parseOctets]. rewrite E. reflexivity.
  - rewrite !noChar_app, S0, S1, S2, S3. reflexivity.
Qed.

(** C6. For every address range with a contiguous mask, [ToCidr]
    succeeds and [CidrToIpv4] reads its text back as the same address and
    mask; and "10.244.170.8/28" is read as address 183806472 with mask
    4294967280, which is rendered as "10.244.170.8/28". *)
Theorem ToCidr_CidrToIpv4_roundtrip (i : Ipv4) :
  U32.in_range (Addr i) -> U32.in_range (Mask i) ->
  IsContiguous i = true ->
  (exists s, ToCidr i = (s, None) /\ CidrToIpv4 s = (i, None)) /\
  CidrToIpv4 "10.244.170.8/28" = (mkIpv4 183806472 4294967280, None) /\
  ToCidr (mkIpv4 183806472 4294967280) = ("10.244.170.8/28"%string, None).
Proof.
  intros Ha Hm Hc. split; [|split; reflexivity].
  destruct (IsContiguous_inv i Hm Hc) as (k & Hk & Ek).
  destruct (DottedDecimalToUint32_addrToString (Addr i) Ha) as [Hd Hs].
  destruct (decimalTextOk_byte (32 - k) ltac:(lia)) as (_ & _ & Hp).
  exists (addrToString (Addr i) ++ String "/"%char (Itoa (32 - k)))%string.
  split.
  - unfold ToCidr. rewrite Hc. cbn [negb].
    rewrite Ek, maskToString_prefixMask by assumption. reflexivity.
  - unfold CidrToIpv4.
    rewrite (Split_app _ _ _ Hs), (Split_noChar _ _ Hp).
    cbn [List.nth List.length Nat.eqb].
    rewrite Hd, stringToMask_Itoa by assumption.
    unfold setMask. cbn [Addr Mask]. rewrite <- Ek.
    destruct i; reflexivity.
Qed.

Lemma ToCidr_CidrToIpv4_roundtrip_witness :
  exists s,
    ToCidr (mkIpv4 3232235776 4294967040) = (s, None) /\
    CidrToIpv4 s = (mkIpv4 3232235776 4294967040, None).
Proof.
  apply (ToCidr_CidrToIpv4_roundtrip (mkIpv4 3232235776 4294967040)).
  - u32_range.
  - u32_range.
  - reflexivity.
Defined.

(** ** Text conversion: what is refused *)

Lemma range_check_false (n hi : Z) :
  (n <? 0) || (n >? hi) = false -> 0 <= n <= hi.
Proof.
  intros H. apply orb_false_iff in H. destruct H as [H1 H2].
  rewrite Z.gtb_ltb in H2. apply Z.ltb_ge in H1, H2. lia.
Qed.

Lemma DottedDecimalToUint32_accepts (s : string) (v : Z) :
  DottedDecimalToUint32 s = (v, None) ->
  exists o0 o1 o2 o3 n0 n1 n2 n3,
    Split s "."%char = [o0; o1; o2; o3] /\
    Atoi o0 = Some n0 /\ Atoi o1 = Some n1 /\
    Atoi o2 = Some n2 /\ Atoi o3 = Some n3 /\
    0 <= n0 <= 255 /\ 0 <= n1 <= 255 /\ 0 <= n2 <= 255 /\ 0 <= n3 <= 255.
Proof.
  unfold DottedDecimalToUint32. intros H.
  destruct (Split s ".") as [|o0 [|o1 [|o2 [|o3 [|o4 rest]]]]] eqn:ES;
    try discriminate.
  cbn [List.length Nat.eqb negb parseOctets] in H.
  destruct (Atoi o0) as [n0|] eqn:A0; [|discriminate].
  destruct ((n0 <? 0) || (n0 >? 255)) eqn:R0; [discriminate|].
  destruct (Atoi o1) as [n1|] eqn:A1; [|discriminate].
  destruct ((n1 <? 0) || (n1 >? 255)) eqn:R1; [discriminate|].
  destruct (Atoi o2) as [n2|] eqn:A2; [|discriminate].
  destruct ((n2 <? 0) || (n2 >? 255)) eqn:R2; [discriminate|].
  destruct (Atoi o3) as [n3|] eqn:A3; [|discriminate].
  destruct ((n3 <? 0) || (n3 >? 255)) eqn:R3; [discriminate|].
  apply range_check_false in R0, R1, R2, R3.
  exists o0, o1, o2, o3, n0, n1, n2, n3.
  repeat split; try assumption; try reflexivity; lia.
Qed.

Lemma stringToMask_accepts (s : string) (m : Z) :
  stringToMask s = (m, None) ->
  exists n, Atoi s = Some n /\ 0 <= n <= 32 /\ m = prefixMask (32 - n).
Proof.
  unfold stringToMask. intros H.
  destruct (Atoi s) as [n|] eqn:A; [|discriminate].
  destruct ((n <? 0) || (n >? 32)) eqn:R; [discriminate|].
  apply range_check_false in R.
  exists n. split; [reflexivity|]. split; [lia|].
  injection H as <-. unfold U32.to_uint8.
  rewrite (Z.mod_small n) by lia.
  rewrite (Z.mod_small (32 - n)) by lia.
  apply candidate_mask_value. lia.
Qed.

(** C9. The parsers are meant to refuse every malformed text.
    [DottedDecimalToUint32] and [stringToMask] do (the two lemmas above),
    but [CidrToIpv4] takes the prefix length only when the text has exactly
    one "/": with two it reads the address alone and answers with a /32. *)
Theorem CidrToIpv4_accepts_two_slashes :
  List.length (Split "1.2.3.4/24/8" "/"%char) = 3%nat /\
  CidrToIpv4 "1.2.3.4/24/8" = (mkIpv4 16909060 4294967295, None) /\
  CidrToIpv4 "1.2.3.4" = (mkIpv4 16909060 4294967295, None) /\
  CidrToIpv4 "1.2.3.4/24" = (mkIpv4 16909060 4294967040, None).
Proof. repeat split. Qed.

(** * Further properties of the code *)

(** ** Contiguous masks and the interval of a block *)

(** X1. [IsContiguous] holds exactly for the 33 prefix masks
    [2^32 - 2^k], including 0 and the all-ones mask. *)
Theorem IsContiguous_iff_prefixMask (i : Ipv4) :
  U32.in_range (Mask i) ->
  IsContiguous i = true <->
  exists k, 0 <= k <= 32 /\ Mask i = U32.modulus - 2 ^ k.
Proof.
  intros Hm. split.
  - intros H. apply IsContiguous_inv; assumption.
  - intros (k & Hk & E). destruct i as [a m]. cbn [Mask] in E. subst m.
    apply (IsContiguous_prefixMask a k Hk).
Qed.

Lemma IsContiguous_iff_prefixMask_witness :
  IsContiguous (mkIpv4 0 4294967040) = true <->
  exists k, 0 <= k <= 32 /\ 4294967040 = U32.modulus - 2 ^ k.
Proof.
  apply (IsContiguous_iff_prefixMask (mkIpv4 0 4294967040)). u32_range.
Defined.

(** X2. Under a contiguous mask the addresses from [Network()] to
    [Broadcast()] are exactly those with the same network address, and the
    stored address is one of them. *)
Theorem block_interval_membership (i : Ipv4) (x : Z) :
  U32.in_range (Addr i) -> U32.in_range (Mask i) -> U32.in_range x ->
  IsContiguous i = true ->
  (Network i <= x <= Broadcast i <-> Network (mkIpv4 x (Mask i)) = Network i)
  /\ Network i <= Addr i <= Broadcast i.
Proof.
  intros Ha Hm Hx Hc.
  destruct (IsContiguous_inv i Hm Hc) as (k & Hk & E).
  destruct i as [a m]. cbn [Addr Mask] in *. subst m.
  rewrite !Network_prefixMask, Broadcast_prefixMask by assumption.
  pose proof (pow2_bounds k Hk) as P.
  pose proof (Z.div_mod a (2 ^ k) ltac:(lia)) as Da.
  pose proof (Z.div_mod x (2 ^ k) ltac:(lia)) as Dx.
  pose proof (Z.mod_pos_bound a (2 ^ k) ltac:(lia)) as Ba.
  pose proof (Z.mod_pos_bound x (2 ^ k) ltac:(lia)) as Bx.
  split; [|lia]. split.
  - intros Hin.
    assert (x / 2 ^ k = a / 2 ^ k); [|lia].
    symmetry. apply (Z.div_unique x (2 ^ k) (a / 2 ^ k) (x - 2 ^ k * (a / 2 ^ k)));
      lia.
  - intros Heq. lia.
Qed.

Lemma block_interval_membership_witness :
  (Network (mkIpv4 183806472 4294967280) <= 183806479 <=
   Broadcast (mkIpv4 183806472 4294967280) <->
   Network (mkIpv4 183806479 4294967280) =
   Network (mkIpv4 183806472 4294967280)) /\
  Network (mkIpv4 183806472 4294967280) <= 183806472 <=
  Broadcast (mkIpv4 183806472 4294967280).
Proof.
  apply (block_interval_membership (mkIpv4 183806472 4294967280) 183806479);
    try u32_range.
  reflexivity.
Defined.

(** ** More on [Subnet] *)

Lemma cidrBlock_of_aligned (b : Ipv4) :
  U32.in_range (Addr b) -> U32.in_range (Mask b) ->
  IsContiguous b = true -> Network b = Addr b -> cidrBlock b.
Proof.
  intros Ha Hm Hc Hn.
  destruct (IsContiguous_inv b Hm Hc) as (k & Hk & E).
  split; [exact Ha|]. exists k. split; [exact Hk|]. split; [exact E|].
  destruct b as [a m]. cbn [Addr Mask] in *. subst m.
  apply aligned_iff; assumption.
Qed.

Lemma Subnet_fuel_of_cidrBlock (b : Ipv4) (lf d : nat) :
  cidrBlock b -> (32 < lf)%nat ->
  Subnet_fuel lf (S d) (Addr b) (Broadcast b) = Some ([b], None).
Proof.
  intros (Ha & k & Hk & Em & Hal) Hlf.
  destruct b as [a m]. cbn [Addr Mask] in *. subst m.
  pose proof (pow2_bounds k Hk) as Pk.
  assert (HB : Broadcast (mkIpv4 a (prefixMask k)) = a + 2 ^ k - 1).
  { rewrite Broadcast_prefixMask, Hal by assumption. lia. }
  assert (HBr : U32.in_range (Broadcast (mkIpv4 a (prefixMask k)))).
  { apply Broadcast_in_range; cbn [Addr Mask];
      [assumption|apply prefixMask_in_range; assumption]. }
  rewrite HB in *.
  destruct (Z.eq_dec k 0) as [->|Hk0].
  { change (2 ^ 0) with 1. replace (a + 1 - 1) with a by lia.
    apply Subnet_fuel_single. }
  assert (Hlt : a < a + 2 ^ k - 1).
  { assert (2 ^ 1 <= 2 ^ k) by (apply Z.pow_le_mono_r; lia).
    change (2 ^ 1) with 2 in *. lia. }
  destruct (Subnet_fuel_step lf a (a + 2 ^ k - 1) Ha HBr Hlt Hlf) as
      (k' & Hk' & Hal' & HB' & C).
  cbv zeta in HB', C. rewrite HB' in C.
  pose proof (pow2_bounds k' Hk') as Pk'.
  assert (Hq : a / 2 ^ k = (a + 2 ^ k - 1) / 2 ^ k).
  { pose proof (Z.div_mod a (2 ^ k) ltac:(lia)) as D.
    apply (Z.div_unique _ _ _ (2 ^ k - 1)); lia. }
  destruct C as [[Heq C]|[(Hgt & _ & Hmin & _)|(Hlt' & Hodd & _)]].
  - assert (k' = k).
    { apply (Z.pow_inj_r 2); lia. }
    subst k'. apply C.
  - exfalso. pose proof (Hmin k ltac:(lia) Hq) as Hle.
    assert (2 ^ k' <= 2 ^ k) by (apply Z.pow_le_mono_r; lia). lia.
  - exfalso. apply Hodd.
    assert (k' < k).
    { destruct (Z_lt_le_dec k' k) as [L|L]; [exact L|].
      assert (2 ^ k <= 2 ^ k') by (apply Z.pow_le_mono_r; lia). lia. }
    apply (pow2_divide_mod a k (k' + 1)); [lia|assumption].
Qed.

(** X3. Summarising the range of an aligned block with a contiguous mask
    gives back that block alone. *)
Theorem Subnet_of_block (b : Ipv4) :
  U32.in_range (Addr b) -> U32.in_range (Mask b) ->
  IsContiguous b = true -> Network b = Addr b ->
  Subnet (Addr b) (Broadcast b) = Some ([b], None) /\
  forall lf d, (33 <= lf)%nat -> (1 <= d)%nat ->
               Subnet_fuel lf d (Addr b) (Broadcast b) = Some ([b], None).
Proof.
  intros Ha Hm Hc Hn.
  pose proof (cidrBlock_of_aligned b Ha Hm Hc Hn) as Hb.
  split.
  - apply (Subnet_fuel_of_cidrBlock b 33 32 Hb). lia.
  - intros lf d Hlf Hd. destruct d as [|d]; [lia|].
    apply Subnet_fuel_of_cidrBlock; [exact Hb|lia].
Qed.

Lemma Subnet_of_block_witness :
  Subnet 183806464 (Broadcast (mkIpv4 183806464 4294967040)) =
  Some ([mkIpv4 183806464 4294967040], None).
Proof.
  apply (Subnet_of_block (mkIpv4 183806464 4294967040));
    try u32_range; reflexivity.
Defined.

Lemma Subnet_fuel_error_kinds (lf d : nat) :
  forall start stop res err,
    (32 < lf)%nat -> U32.in_range start -> U32.in_range stop ->
    Subnet_fuel lf d start stop = Some (res, Some err) ->
    (stop < start /\ res = [] /\
     err = "Argument order is backwards"%string) \/
    (start < stop /\ err = "Internal Error"%string /\
     exists m, res = [mkIpv4 start m]).
Proof.
  induction d as [|d IH]; intros start stop res err Hlf Hs Ht H;
    [discriminate|].
  destruct (Z.lt_trichotomy start stop) as [L|[E|G]].
  - right. split; [exact L|].
    destruct (Subnet_fuel_step lf start stop Hs Ht L Hlf) as
        (k & Hk & Hk0 & HB & C).
    cbv zeta in HB, C. rewrite HB in C.
    pose proof (pow2_bounds k Hk) as Pk.
    destruct C as [[_ C]|[(_ & _ & _ & C)|(Hlt & _ & C)]]; rewrite C in H.
    + discriminate.
    + injection H as <- <-. split; [reflexivity|]. eexists; reflexivity.
    + destruct (Subnet_fuel lf d (start + 2 ^ k) stop) as [[next [err'|]]|]
        eqn:R; try discriminate.
      injection H as <- <-.
      destruct (IH (start + 2 ^ k) stop next err' Hlf) as
          [(Hbad & _)|(_ & Herr & _)]; try assumption.
      * unfold U32.in_range in *. lia.
      * lia.
      * split; [exact Herr|]. eexists; reflexivity.
  - subst stop. rewrite Subnet_fuel_single in H. discriminate.
  - left. rewrite Subnet_fuel_backwards in H by lia.
    injection H as <- <-. repeat split. lia.
Qed.

(** X4. [Subnet] has two ways to fail. With [start > stop] it returns no
    block and "Argument order is backwards"; with [start < stop] the only
    error is "Internal Error", and whatever the depth at which it arose,
    the slice returned with it holds one block, the first, at [start]. *)
Theorem Subnet_error_kinds (lf d : nat) (start stop : Z)
        (res : list Ipv4) (err : error) :
  U32.in_range start -> U32.in_range stop ->
  Subnet_fuel lf d start stop = Some (res, Some err) ->
  (stop < start /\ res = [] /\
   err = "Argument order is backwards"%string) \/
  (start < stop /\ err = "Internal Error"%string /\
   exists m, res = [mkIpv4 start m]).
Proof.
  intros Hs Ht H.
  apply (Subnet_fuel_mono d lf (Nat.max lf 33) d) in H; try lia.
  apply (Subnet_fuel_error_kinds (Nat.max lf 33) d); try assumption. lia.
Qed.

Lemma Subnet_error_kinds_witness :
  (6 < 1 /\ [mkIpv4 1 4294967295] = [] /\
   "Internal Error"%string = "Argument order is backwards"%string) \/
  (1 < 6 /\ "Internal Error"%string = "Internal Error"%string /\
   exists m, [mkIpv4 1 4294967295] = [mkIpv4 1 m]).
Proof.
  apply (Subnet_error_kinds 33 33 1 6); try u32_range. reflexivity.
Defined.

(** X5. From address 0 the summary succeeds exactly for the ranges that
    are one block: [Subnet(0, stop)] returns without error if and only if
    [stop + 1] is a power of two. *)
Theorem Subnet_from_zero (stop : Z) :
  U32.in_range stop ->
  (exists res, Subnet 0 stop = Some (res, None)) <->
  (exists w, 0 <= w <= 32 /\ stop = 2 ^ w - 1).
Proof.
  intros Ht.
  assert (H0 : U32.in_range 0) by u32_range.
  split.
  - intros (res & H). unfold Subnet in H.
    destruct (Z.eq_dec stop 0) as [->|Hne].
    { exists 0. split; [lia|reflexivity]. }
    assert (L : 0 < stop) by (unfold U32.in_range in Ht; lia).
    destruct (Subnet_fuel_step 33 0 stop H0 Ht L ltac:(lia)) as
        (k & Hk & _ & HB & C).
    cbv zeta in HB, C. rewrite HB in C.
    destruct C as [[Heq _]|[(_ & _ & _ & C)|(_ & Hodd & _)]].
    + exists k. split; [exact Hk|lia].
    + rewrite C in H. discriminate.
    + exfalso. apply Hodd. apply Z.mod_0_l. apply Z.pow_nonzero; lia.
  - intros (w & Hw & ->).
    exists [mkIpv4 0 (prefixMask w)].
    assert (Hb : cidrBlock (mkIpv4 0 (prefixMask w))).
    { split; [exact H0|]. exists w. cbn [Addr Mask].
      repeat split; try lia; apply Z.mod_0_l; apply Z.pow_nonzero; lia. }
    pose proof (Subnet_fuel_of_cidrBlock _ 33 32 Hb ltac:(lia)) as H.
    cbn [Addr] in H.
    rewrite Broadcast_prefixMask in H by assumption.
    rewrite Z.mod_0_l in H by (apply Z.pow_nonzero; lia).
    replace (0 - 0 + 2 ^ w - 1) with (2 ^ w - 1) in H by lia.
    exact H.
Qed.

Lemma Subnet_from_zero_witness :
  (exists res, Subnet 0 255 = Some (res, None)) <->
  (exists w, 0 <= w <= 32 /\ 255 = 2 ^ w - 1).
Proof. apply (Subnet_from_zero 255). u32_range. Defined.

Lemma chained_ascending (l : list Ipv4) :
  forall start stop,
    Forall (fun b => Addr b <= Broadcast b) l ->
    chained l start stop -> ascending l.
Proof.
  induction l as [|b rest IH]; intros start stop Hall H; [exact I|].
  destruct H as [_ H]. inversion Hall as [|? ? Hb Hrest]; subst.
  destruct rest as [|c rest'].
  - split; exact I.
  - split.
    + destruct H as [H _]. lia.
    + apply (IH _ _ Hrest H).
Qed.

(** X6. A successful [Subnet(start, stop)] is an exact cover: an address
    lies in [[start, stop]] if and only if it lies in one of the returned
    blocks, and the blocks are in ascending order without overlap. *)
Theorem Subnet_success_exact_cover (lf d : nat) (start stop : Z)
        (res : list Ipv4) :
  U32.in_range start -> U32.in_range stop ->
  Subnet_fuel lf d start stop = Some (res, None) ->
  covers res start stop /\ ascending res /\ start <= stop.
Proof.
  intros Hs Ht H.
  apply (Subnet_fuel_mono d lf (Nat.max lf 33) d) in H; try lia.
  apply Subnet_fuel_blocks in H; try assumption; try lia.
  destruct H as [Hch Hall].
  assert (Hord : Forall (fun b => Addr b <= Broadcast b) res).
  { eapply Forall_impl; [|exact Hall]. apply cidrBlock_ordered. }
  split; [|split].
  - apply chained_covers; assumption.
  - eapply chained_ascending; eassumption.
  - eapply chained_le; eassumption.
Qed.

Lemma Subnet_success_exact_cover_witness :
  covers [mkIpv4 1 4294967295; mkIpv4 2 4294967294; mkIpv4 4 4294967295] 1 4 /\
  ascending [mkIpv4 1 4294967295; mkIpv4 2 4294967294; mkIpv4 4 4294967295] /\
  1 <= 4.
Proof.
  apply (Subnet_success_exact_cover 33 33 1 4); try u32_range. reflexivity.
Defined.

Lemma Subnet_fuel_greedy (lf d : nat) :
  forall start stop res,
    (32 < lf)%nat -> U32.in_range start -> U32.in_range stop ->
    Subnet_fuel lf d start stop = Some (res, None) ->
    Forall (fun b =>
              exists k, 0 <= k <= 32 /\ Mask b = prefixMask k /\
                        forall k', k < k' <= 32 ->
                                   Addr b mod 2 ^ k' <> 0 \/
                                   stop < Addr b + 2 ^ k' - 1) res.
Proof.
  induction d as [|d IH]; intros start stop res Hlf Hs Ht H; [discriminate|].
  destruct (Z.lt_trichotomy start stop) as [L|[E|G]].
  - destruct (Subnet_fuel_step lf start stop Hs Ht L Hlf) as
        (k & Hk & Hk0 & HB & C).
    cbv zeta in HB, C. rewrite HB in C.
    pose proof (pow2_bounds k Hk) as Pk.
    destruct C as [[Heq C]|[(_ & _ & _ & C)|(Hlt & Hodd & C)]];
      rewrite C in H.
    + injection H as <-. constructor; [|constructor].
      exists k. cbn [Addr Mask]. split; [exact Hk|]. split; [reflexivity|].
      intros k' Hk'. right.
      assert (2 ^ k < 2 ^ k') by (apply Z.pow_lt_mono_r; lia). lia.
    + discriminate.
    + destruct (Subnet_fuel lf d (start + 2 ^ k) stop) as [[next [err|]]|]
        eqn:R; try discriminate.
      injection H as <-. constructor.
      * exists k. cbn [Addr Mask]. split; [exact Hk|]. split; [reflexivity|].
        intros k' Hk'. left. intros Z0. apply Hodd.
        apply (pow2_divide_mod start k' (k + 1)); [lia|exact Z0].
      * apply (IH (start + 2 ^ k) stop next); try assumption.
        unfold U32.in_range in *. lia.
  - subst stop. rewrite Subnet_fuel_single in H. injection H as <-.
    constructor; [|constructor].
    exists 0. cbn [Addr Mask]. split; [lia|]. split; [reflexivity|].
    intros k' Hk'. right.
    assert (2 ^ 0 < 2 ^ k') by (apply Z.pow_lt_mono_r; lia).
    change (2 ^ 0) with 1 in *. lia.
  - rewrite Subnet_fuel_backwards in H by lia. discriminate.
Qed.

(** X7. A successful [Subnet] is greedy: no returned block could be
    doubled, since the block of twice the size at the same address would
    either not be aligned there or pass [stop]. *)
Theorem Subnet_success_greedy (lf d : nat) (start stop : Z)
        (res : list Ipv4) :
  U32.in_range start -> U32.in_range stop ->
  Subnet_fuel lf d start stop = Some (res, None) ->
  Forall (fun b =>
            exists k, 0 <= k <= 32 /\ Mask b = U32.modulus - 2 ^ k /\
                      forall k', k < k' <= 32 ->
                                 Addr b mod 2 ^ k' <> 0 \/
                                 stop < Addr b + 2 ^ k' - 1) res.
Proof.
  intros Hs Ht H.
  apply (Subnet_fuel_mono d lf (Nat.max lf 33) d) in H; try lia.
  apply (Subnet_fuel_greedy (Nat.max lf 33) d start stop res);
    try assumption. lia.
Qed.

Lemma Subnet_success_greedy_witness :
  Forall (fun b =>
            exists k, 0 <= k <= 32 /\ Mask b = U32.modulus - 2 ^ k /\
                      forall k', k < k' <= 32 ->
                                 Addr b mod 2 ^ k' <> 0 \/
                                 3 < Addr b + 2 ^ k' - 1)
         [mkIpv4 1 4294967295; mkIpv4 2 4294967294].
Proof.
  apply (Subnet_success_greedy 33 33 1 3); try u32_range. reflexivity.
Defined.

(** X8. [Subnet] does not fail on the tail of a block: for a contiguous
    mask and any [start] within the block of [n], summarising from [start]
    to [n.Broadcast()] succeeds, with blocks running from [start] to it. *)
Theorem Subnet_block_tail (n : Ipv4) (start : Z) :
  U32.in_range (Addr n) -> U32.in_range (Mask n) -> U32.in_range start ->
  IsContiguous n = true ->
  Network n <= start <= Broadcast n ->
  exists res,
    Subnet start (Broadcast n) = Some (res, None) /\
    chained res start (Broadcast n).
Proof.
  intros Ha Hm Hs Hc Hin.
  pose proof (Broadcast_in_range n Ha Hm) as HB.
  destruct (IsContiguous_inv n Hm Hc) as (k & Hk & E).
  destruct n as [a m]. cbn [Addr Mask] in *. subst m.
  rewrite Network_prefixMask, Broadcast_prefixMask in * by assumption.
  pose proof (pow2_bounds k Hk) as Pk.
  pose proof (Z.div_mod a (2 ^ k) ltac:(lia)) as Da.
  set (stop := a - a mod 2 ^ k + 2 ^ k - 1) in *.
  assert (Q : stop / 2 ^ k = a / 2 ^ k).
  { symmetry. apply (Z.div_unique _ _ _ (2 ^ k - 1)); subst stop; lia. }
  assert (Hag : start / 2 ^ k = stop / 2 ^ k).
  { rewrite Q. symmetry.
    apply (Z.div_unique _ _ _ (start - 2 ^ k * (a / 2 ^ k))); lia. }
  assert (Hsat : stop mod 2 ^ k = 2 ^ k - 1).
  { symmetry. apply (Z.mod_unique _ _ (a / 2 ^ k)); subst stop; lia. }
  destruct (Subnet_fuel_total start stop Hs HB) as [r Hr].
  pose proof (Hr 33%nat 33%nat ltac:(lia) ltac:(lia)) as H33.
  pose proof (Subnet_fuel_saturated 33 33 start stop k r ltac:(lia) Hs HB Hk
                ltac:(lia) Hag Hsat H33) as Hnone.
  destruct r as [res err]. cbn [snd] in Hnone. subst err.
  exists res. split; [exact H33|].
  apply (Subnet_fuel_blocks 33 33) in H33; try assumption; try lia.
  apply H33.
Qed.

Lemma Subnet_block_tail_witness :
  exists res,
    Subnet 183806469 (Broadcast (mkIpv4 183806464 4294967040)) =
    Some (res, None) /\
    chained res 183806469 (Broadcast (mkIpv4 183806464 4294967040)).
Proof.
  apply (Subnet_block_tail (mkIpv4 183806464 4294967040) 183806469);
    try u32_range.
  - reflexivity.
  - vm_compute. split; discriminate.
Defined.

(** ** More on [Overlap] *)

Lemma orderPair_comm (n1 n2 : Ipv4) : orderPair n1 n2 = orderPair n2 n1.
Proof.
  destruct (orderPair_cases n1 n2) as [[<- _]|(Hne & a & b & Ho & Hle & Hab)];
    [reflexivity|].
  rewrite Ho. symmetry.
  unfold orderPair in *. rewrite !Z.gtb_ltb in *.
  destruct (Z.ltb_spec (Addr n1) (Addr n2)), (Z.ltb_spec (Addr n2) (Addr n1));
    try lia; try exact Ho.
  destruct (Z.ltb_spec (Mask n1) (Mask n2)), (Z.ltb_spec (Mask n2) (Mask n1));
    try lia; try exact Ho.
  exfalso. apply Hne. destruct n1, n2. cbn [Addr Mask] in *. f_equal; lia.
Qed.

Lemma Overlap_fuel_comm (lf d : nat) (n1 n2 : Ipv4) :
  Overlap_fuel lf d n1 n2 = Overlap_fuel lf d n2 n1.
Proof.
  unfold Overlap_fuel. rewrite (orderPair_comm n1 n2). reflexivity.
Qed.

(** X9. [Overlap] does not depend on the order of its arguments: the
    switch that sorts them into [lo] and [hi] picks the same pair. *)
Theorem Overlap_symmetric (n1 n2 : Ipv4) :
  Overlap n1 n2 = Overlap n2 n1 /\
  forall lf d, Overlap_fuel lf d n1 n2 = Overlap_fuel lf d n2 n1.
Proof.
  split; [apply Overlap_fuel_comm|].
  intros lf d. apply Overlap_fuel_comm.
Qed.

Lemma Overlap_fuel_nested (lf d : nat) (n1 n2 : Ipv4) :
  cidrBlock n1 -> (32 < lf)%nat ->
  Addr n2 <= Addr n1 -> Broadcast n1 <= Broadcast n2 ->
  Overlap_fuel lf (S d) n1 n2 = Some [n1].
Proof.
  intros Hb Hlf Hlo Hhi.
  pose proof (cidrBlock_ordered n1 Hb) as Hord.
  pose proof (Subnet_fuel_of_cidrBlock n1 lf d Hb Hlf) as HS.
  unfold Overlap_fuel.
  destruct (orderPair_cases n1 n2) as [[<- Ho]|(Hne & a & b & Ho & Hle & Hab)];
    rewrite Ho; [reflexivity|].
  rewrite min_by_ltb, Z.gtb_ltb.
  destruct Hab as [[-> ->]|[-> ->]].
  - assert (E : Addr n2 = Addr n1) by lia. rewrite E.
    replace (Z.min (Broadcast n1) (Broadcast n2)) with (Broadcast n1) by lia.
    replace (Broadcast n1 <? Addr n1) with false
      by (symmetry; apply Z.ltb_ge; lia).
    cbn [orb]. rewrite HS. reflexivity.
  - replace (Z.min (Broadcast n2) (Broadcast n1)) with (Broadcast n1) by lia.
    replace (Broadcast n1 <? Addr n1) with false
      by (symmetry; apply Z.ltb_ge; lia).
    replace (Broadcast n2 <? Addr n1) with false
      by (symmetry; apply Z.ltb_ge; lia).
    cbn [orb]. rewrite HS. reflexivity.
Qed.

(** X10. When an aligned block [n1] with a contiguous mask lies within
    the interval from [n2.Addr] to [n2.Broadcast()], [Overlap] of the two,
    in either order, is [n1] alone. *)
Theorem Overlap_nested (n1 n2 : Ipv4) :
  U32.in_range (Addr n1) -> U32.in_range (Mask n1) ->
  IsContiguous n1 = true -> Network n1 = Addr n1 ->
  Addr n2 <= Addr n1 -> Broadcast n1 <= Broadcast n2 ->
  Overlap n1 n2 = Some [n1] /\ Overlap n2 n1 = Some [n1].
Proof.
  intros Ha Hm Hc Hn Hlo Hhi.
  pose proof (cidrBlock_of_aligned n1 Ha Hm Hc Hn) as Hb.
  assert (H : Overlap n1 n2 = Some [n1]).
  { apply (Overlap_fuel_nested 33 32); try assumption. lia. }
  split; [exact H|].
  unfold Overlap in *. rewrite Overlap_fuel_comm. exact H.
Qed.

Lemma Overlap_nested_witness :
  Overlap (mkIpv4 168432640 4294967040) (mkIpv4 168432640 4294965248) =
  Some [mkIpv4 168432640 4294967040] /\
  Overlap (mkIpv4 168432640 4294965248) (mkIpv4 168432640 4294967040) =
  Some [mkIpv4 168432640 4294967040].
Proof.
  apply (Overlap_nested (mkIpv4 168432640 4294967040)
                        (mkIpv4 168432640 4294965248));
    try u32_range; try reflexivity.
  vm_compute. discriminate.
Defined.

(** ** More on text conversion *)

Lemma lor_bytes_sum (b0 b1 b2 b3 : Z) :
  0 <= b0 <= 255 -> 0 <= b1 <= 255 -> 0 <= b2 <= 255 -> 0 <= b3 <= 255 ->
  Z.lor (Z.lor (Z.lor (U32.shl b0 24) (U32.shl b1 16)) (U32.shl b2 8)) b3 =
  b0 * 16777216 + b1 * 65536 + b2 * 256 + b3.
Proof.
  intros H0 H1 H2 H3.
  rewrite !shl_byte by lia.
  rewrite (lor_high_low b0 (b1 * 2 ^ 16) 24);
    [|lia|change (2 ^ 24) with 16777216; change (2 ^ 16) with 65536; lia].
  replace (b0 * 2 ^ 24 + b1 * 2 ^ 16) with ((b0 * 2 ^ 8 + b1) * 2 ^ 16)
    by (change (2 ^ 24) with (2 ^ 8 * 2 ^ 16); ring).
  rewrite (lor_high_low _ (b2 * 2 ^ 8) 16);
    [|lia|change (2 ^ 16) with 65536; change (2 ^ 8) with 256; lia].
  replace ((b0 * 2 ^ 8 + b1) * 2 ^ 16 + b2 * 2 ^ 8)
    with (((b0 * 2 ^ 8 + b1) * 2 ^ 8 + b2) * 2 ^ 8)
    by (change (2 ^ 16) with (2 ^ 8 * 2 ^ 8); ring).
  rewrite (lor_high_low _ b3 8); [|lia|change (2 ^ 8) with 256; lia].
  change (2 ^ 8) with 256. lia.
Qed.

Lemma parseOctets_four (o0 o1 o2 o3 : string) (n0 n1 n2 n3 : Z) :
  Atoi o0 = Some n0 -> Atoi o1 = Some n1 ->
  Atoi o2 = Some n2 -> Atoi o3 = Some n3 ->
  0 <= n0 <= 255 -> 0 <= n1 <= 255 -> 0 <= n2 <= 255 -> 0 <= n3 <= 255 ->
  parseOctets [o0; o1; o2; o3] = Some [n0; n1; n2; n3].
Proof.
  intros A0 A1 A2 A3 R0 R1 R2 R3. cbn [parseOctets].
  rewrite A0, A1, A2, A3.
  assert (F : forall n, 0 <= n <= 255 -> (n <? 0) || (n >? 255) = false).
  { intros n Hn. apply orb_false_iff. split.
    - apply Z.ltb_ge. lia.
    - rewrite Z.gtb_ltb. apply Z.ltb_ge. lia. }
  rewrite !F by assumption. unfold U32.to_uint8.
  rewrite !Z.mod_small by lia. reflexivity.
Qed.

(** X11. [DottedDecimalToUint32] succeeds exactly on four dot-separated
    pieces that [strconv.Atoi] reads as numbers from 0 to 255, and its
    value then has them as bytes, the first the most significant; it is a
    32-bit value. On every other text it returns 0 with an error. *)
Theorem DottedDecimalToUint32_spec (s : string) (v : Z) :
  (DottedDecimalToUint32 s = (v, None) <->
   exists o0 o1 o2 o3 n0 n1 n2 n3,
     Split s "."%char = [o0; o1; o2; o3] /\
     Atoi o0 = Some n0 /\ Atoi o1 = Some n1 /\
     Atoi o2 = Some n2 /\ Atoi o3 = Some n3 /\
     0 <= n0 <= 255 /\ 0 <= n1 <= 255 /\ 0 <= n2 <= 255 /\ 0 <= n3 <= 255 /\
     v = n0 * 16777216 + n1 * 65536 + n2 * 256 + n3) /\
  (DottedDecimalToUint32 s = (v, None) -> U32.in_range v) /\
  (forall err, DottedDecimalToUint32 s = (v, Some err) -> v = 0).
Proof.
  assert (Fwd : DottedDecimalToUint32 s = (v, None) ->
                exists o0 o1 o2 o3 n0 n1 n2 n3,
                  Split s "."%char = [o0; o1; o2; o3] /\
                  Atoi o0 = Some n0 /\ Atoi o1 = Some n1 /\
                  Atoi o2 = Some n2 /\ Atoi o3 = Some n3 /\
                  0 <= n0 <= 255 /\ 0 <= n1 <= 255 /\
                  0 <= n2 <= 255 /\ 0 <= n3 <= 255 /\
                  v = n0 * 16777216 + n1 * 65536 + n2 * 256 + n3).
  { intros H.
    destruct (DottedDecimalToUint32_accepts s v H) as
        (o0 & o1 & o2 & o3 & n0 & n1 & n2 & n3 & ES & A0 & A1 & A2 & A3 &
         R0 & R1 & R2 & R3).
    exists o0, o1, o2, o3, n0, n1, n2, n3.
    repeat (split; [assumption|]).
    unfold DottedDecimalToUint32 in H. rewrite ES in H.
    cbn [List.length Nat.eqb negb] in H.
    rewrite (parseOctets_four _ _ _ _ _ _ _ _ A0 A1 A2 A3 R0 R1 R2 R3) in H.
    rewrite lor_bytes_sum in H by assumption.
    injection H as <-. reflexivity. }
  split; [split; [exact Fwd|]|split].
  - intros (o0 & o1 & o2 & o3 & n0 & n1 & n2 & n3 & ES & A0 & A1 & A2 & A3 &
            R0 & R1 & R2 & R3 & ->).
    unfold DottedDecimalToUint32. rewrite ES.
    cbn [List.length Nat.eqb negb].
    rewrite (parseOctets_four _ _ _ _ _ _ _ _ A0 A1 A2 A3 R0 R1 R2 R3).
    rewrite lor_bytes_sum by assumption. reflexivity.
  - intros H. destruct (Fwd H) as
        (o0 & o1 & o2 & o3 & n0 & n1 & n2 & n3 & _ & _ & _ & _ & _ &
         R0 & R1 & R2 & R3 & ->).
    unfold U32.in_range, U32.modulus. change (2 ^ 32) with 4294967296. lia.
  - intros err H. unfold DottedDecimalToUint32 in H.
    destruct (negb (Nat.eqb (List.length (Split s ".")) 4));
      [injection H as <- _; reflexivity|].
    destruct (parseOctets (Split s ".")) as [[|b0 [|b1 [|b2 [|b3 [|b4 r]]]]]|];
      try (injection H as <- _; reflexivity).
    discriminate.
Qed.

Lemma DottedDecimalToUint32_spec_witness :
  U32.in_range 183806472.
Proof.
  apply (DottedDecimalToUint32_spec "10.244.170.8" 183806472). reflexivity.
Defined.

(** X12. [stringToMask] succeeds exactly on the texts that
    [strconv.Atoi] reads as a number [n] from 0 to 32, and then returns
    the mask with [n] leading one bits, [2^32 - 2^(32-n)]; otherwise it
    returns 0 with an error. *)
Theorem stringToMask_spec (s : string) (m : Z) :
  (stringToMask s = (m, None) <->
   exists n, Atoi s = Some n /\ 0 <= n <= 32 /\
             m = U32.modulus - 2 ^ (32 - n)) /\
  (forall err, stringToMask s = (m, Some err) -> m = 0).
Proof.
  split; [split|].
  - intros H. destruct (stringToMask_accepts s m H) as (n & A & R & E).
    exists n. repeat split; try assumption; lia.
  - intros (n & A & R & ->). unfold stringToMask. rewrite A.
    replace ((n <? 0) || (n >? 32)) with false.
    + unfold U32.to_uint8. rewrite (Z.mod_small n) by lia.
      rewrite (Z.mod_small (32 - n)) by lia.
      rewrite candidate_mask_value by lia. reflexivity.
    + symmetry. apply orb_false_iff. split.
      * apply Z.ltb_ge. lia.
      * rewrite Z.gtb_ltb. apply Z.ltb_ge. lia.
  - intros err H. unfold stringToMask in H.
    destruct (Atoi s) as [n|]; [|injection H as <- _; reflexivity].
    destruct ((n <? 0) || (n >? 32)); [injection H as <- _; reflexivity|].
    discriminate.
Qed.

Lemma stringToMask_spec_witness :
  stringToMask "28" = (4294967280, None).
Proof.
  apply (proj2 (proj1 (stringToMask_spec "28" 4294967280))).
  exists 28. repeat split; try reflexivity; lia.
Defined.

Lemma ToCidr_parses_back (i : Ipv4) :
  U32.in_range (Addr i) -> U32.in_range (Mask i) ->
  IsContiguous i = true ->
  exists s, ToCidr i = (s, None) /\ CidrToIpv4 s = (i, None).
Proof.
  intros Ha Hm Hc.
  destruct (IsContiguous_inv i Hm Hc) as (k & Hk & Ek).
  destruct (DottedDecimalToUint32_addrToString (Addr i) Ha) as [Hd Hs].
  destruct (decimalTextOk_byte (32 - k) ltac:(lia)) as (_ & _ & Hp).
  exists (addrToString (Addr i) ++ String "/"%char (Itoa (32 - k)))%string.
  split.
  - unfold ToCidr. rewrite Hc. cbn [negb].
    rewrite Ek, maskToString_prefixMask by assumption. reflexivity.
  - unfold CidrToIpv4.
    rewrite (Split_app _ _ _ Hs), (Split_noChar _ _ Hp).
    cbn [List.nth List.length Nat.eqb].
    rewrite Hd, stringToMask_Itoa by assumption.
    unfold setMask. cbn [Addr Mask]. rewrite <- Ek.
    destruct i; reflexivity.
Qed.

Lemma DottedDecimalToUint32_in_range (s : string) (v : Z) :
  DottedDecimalToUint32 s = (v, None) -> U32.in_range v.
Proof.
  intros H.
  destruct (DottedDecimalToUint32_accepts s v H) as
      (o0 & o1 & o2 & o3 & n0 & n1 & n2 & n3 & ES & A0 & A1 & A2 & A3 &
       R0 & R1 & R2 & R3).
  unfold DottedDecimalToUint32 in H. rewrite ES in H.
  cbn [List.length Nat.eqb negb] in H.
  rewrite (parseOctets_four _ _ _ _ _ _ _ _ A0 A1 A2 A3 R0 R1 R2 R3) in H.
  rewrite lor_bytes_sum in H by assumption.
  injection H as <-.
  unfold U32.in_range, U32.modulus. change (2 ^ 32) with 4294967296. lia.
Qed.

Lemma CidrToIpv4_well_formed (s : string) (i : Ipv4) :
  CidrToIpv4 s = (i, None) ->
  U32.in_range (Addr i) /\ U32.in_range (Mask i) /\ IsContiguous i = true.
Proof.
  unfold CidrToIpv4. intros H.
  destruct (DottedDecimalToUint32 (nth 0 (Split s "/") EmptyString))
    as [h [e|]] eqn:D; [discriminate|].
  apply DottedDecimalToUint32_in_range in D.
  destruct (Nat.eqb (List.length (Split s "/")) 2).
  - destruct (stringToMask (nth 1 (Split s "/") EmptyString))
      as [m [e|]] eqn:M; [discriminate|].
    apply stringToMask_accepts in M. destruct M as (n & _ & Hn & ->).
    injection H as <-.
    split; [exact D|]. split.
    + apply (prefixMask_in_range (32 - n)). lia.
    + apply (IsContiguous_prefixMask h (32 - n)). lia.
  - injection H as <-.
    split; [exact D|]. split.
    + apply (prefixMask_in_range 0). lia.
    + apply (IsContiguous_prefixMask h 0). lia.
Qed.

(** X13. Whatever [CidrToIpv4] accepts is a 32-bit address with a
    contiguous 32-bit mask; so [ToCidr] does not fail on it, and the text
    it renders is read back as the same value. *)
Theorem CidrToIpv4_result_renders (s : string) (i : Ipv4) :
  CidrToIpv4 s = (i, None) ->
  U32.in_range (Addr i) /\ U32.in_range (Mask i) /\
  IsContiguous i = true /\
  exists t, ToCidr i = (t, None) /\ CidrToIpv4 t = (i, None).
Proof.
  intros H.
  destruct (CidrToIpv4_well_formed s i H) as (Ha & Hm & Hc).
  repeat (split; [assumption|]).
  apply ToCidr_parses_back; assumption.
Qed.

Lemma CidrToIpv4_result_renders_witness :
  exists t,
    ToCidr (mkIpv4 16779012 4278190080) = (t, None) /\
    CidrToIpv4 t = (mkIpv4 16779012 4278190080, None).
Proof.
  apply (CidrToIpv4_result_renders "+1.-0.007.4/+8"). reflexivity.
Defined.

(** X14. A text without "/" is read as a host: [CidrToIpv4] gives it the
    all-ones mask when [DottedDecimalToUint32] accepts it, and fails with
    the zero value when that fails. *)
Theorem CidrToIpv4_no_slash (s : string) :
  noChar "/"%char s = true ->
  CidrToIpv4 s =
  match DottedDecimalToUint32 s with
  | (h, None) => (mkIpv4 h TwoFiveFive, None)
  | (_, Some _) =>
      (mkIpv4 0 0, Some "Failed to convert CIDR string to bits"%string)
  end.
Proof.
  intros H. unfold CidrToIpv4. rewrite (Split_noChar _ _ H).
  cbn [List.nth List.length Nat.eqb].
  destruct (DottedDecimalToUint32 s) as [h [e|]]; reflexivity.
Qed.

Lemma CidrToIpv4_no_slash_witness :
  CidrToIpv4 "192.168.1.7" =
  match DottedDecimalToUint32 "192.168.1.7" with
  | (h, None) => (mkIpv4 h TwoFiveFive, None)
  | (_, Some _) =>
      (mkIpv4 0 0, Some "Failed to convert CIDR string to bits"%string)
  end.
Proof. apply (CidrToIpv4_no_slash "192.168.1.7"). reflexivity. Defined.

Lemma decimalTextNoSpace_byte (n : Z) :
  0 <= n <= 255 -> noChar " "%char (Itoa n) = true.
Proof.
  intros Hn.
  assert (H : forallb (fun i => decimalTextNoSpace (Z.of_nat i)) (seq 0 256)
              = true) by (vm_compute; reflexivity).
  rewrite forallb_forall in H.
  specialize (H (Z.to_nat n)). rewrite Z2Nat.id in H by lia.
  apply H. apply in_seq. lia.
Qed.

Lemma addrToString_noSpace (a : Z) :
  U32.in_range a -> noChar " "%char (addrToString a) = true.
Proof.
  intros Ha.
  destruct (bytes_reassemble a Ha) as [(H0 & H1 & H2 & H3) _].
  cbv zeta in *. unfold addrToString.
  rewrite !noChar_app, !decimalTextNoSpace_byte by assumption.
  reflexivity.
Qed.

(** X15. The address-and-mask text form round-trips for every 32-bit
    address and mask, contiguous or not: the two dotted-decimal texts
    joined by a space are read back by [AddrAndMaskToIpv4] as the same
    pair. *)
Theorem AddrAndMaskToIpv4_roundtrip (a m : Z) :
  U32.in_range a -> U32.in_range m ->
  AddrAndMaskToIpv4 (addrToString a ++ " " ++ addrToString m) =
  (mkIpv4 a m, None).
Proof.
  intros Ha Hm.
  destruct (DottedDecimalToUint32_addrToString a Ha) as [Da _].
  destruct (DottedDecimalToUint32_addrToString m Hm) as [Dm _].
  unfold AddrAndMaskToIpv4.
  change (addrToString a ++ " " ++ addrToString m)%string
    with (addrToString a ++ String " "%char (addrToString m))%string.
  rewrite (Split_app _ _ _ (addrToString_noSpace a Ha)),
    (Split_noChar _ _ (addrToString_noSpace m Hm)).
  cbn [List.nth List.length Nat.eqb negb].
  rewrite Da, Dm. reflexivity.
Qed.

Lemma AddrAndMaskToIpv4_roundtrip_witness :
  AddrAndMaskToIpv4 (addrToString 167772165 ++ " " ++ addrToString 4278255615)
  = (mkIpv4 167772165 4278255615, None).
Proof.
  apply (AddrAndMaskToIpv4_roundtrip 167772165 4278255615); u32_range.
Defined.

(** ** The variants agree *)

Lemma parseOctets_length (octets : list string) :
  forall host, parseOctets octets = Some host ->
               List.length host = List.length octets.
Proof.
  induction octets as [|v rest IH]; intros host H.
  - injection H as <-. reflexivity.
  - cbn [parseOctets] in H.
    destruct (Atoi v) as [n|]; [|discriminate].
    destruct ((n <? 0) || (n >? 255)); [discriminate|].
    destruct (parseOctets rest) as [bs|]; [|discriminate].
    injection H as <-. cbn [List.length]. f_equal. apply IH. reflexivity.
Qed.

Lemma stringToHost_agrees_aux (s : string) :
  fst (CachedText.stringToHost s) = fst (DottedDecimalToUint32 s) /\
  (snd (CachedText.stringToHost s) = None <->
   snd (DottedDecimalToUint32 s) = None).
Proof.
  unfold CachedText.stringToHost, DottedDecimalToUint32.
  destruct (parseOctets (Split s ".")) as [host|] eqn:P.
  - rewrite <- (parseOctets_length _ _ P).
    destruct host as [|b0 [|b1 [|b2 [|b3 [|b4 r]]]]];
      cbn [List.length Nat.eqb negb CachedText.readBigEndianUint32 fst snd];
      try (split; [reflexivity|split; discriminate]).
    split; [|split; reflexivity].
    rewrite (Z.lor_comm (Z.lor (Z.lor b3 _) _)), (Z.lor_comm (Z.lor b3 _)),
      (Z.lor_comm b3).
    rewrite !Z.lor_assoc. reflexivity.
  - destruct (negb (Nat.eqb (List.length (Split s ".")) 4));
      cbn [fst snd]; split; try reflexivity; split; discriminate.
Qed.

(** X16. [stringToHost] of [main.go], which reads the octets before it
    counts them and decodes them with [binary.Read], and
    [DottedDecimalToUint32] return the same value on every text and fail
    on the same texts. *)
Theorem stringToHost_agrees (s : string) :
  fst (CachedText.stringToHost s) = fst (DottedDecimalToUint32 s) /\
  (snd (CachedText.stringToHost s) = None <->
   snd (DottedDecimalToUint32 s) = None).
Proof. apply stringToHost_agrees_aux. Qed.

Lemma stringToHost_of_DottedDecimal (s : string) (h : Z) :
  CachedText.stringToHost s = (h, None) <->
  DottedDecimalToUint32 s = (h, None).
Proof.
  destruct (stringToHost_agrees_aux s) as [Hv Hs].
  destruct (CachedText.stringToHost s) as [v1 e1],
           (DottedDecimalToUint32 s) as [v2 e2].
  cbn [fst snd] in *. subst v2.
  split; intros H; injection H as -> ->; f_equal; apply Hs; reflexivity.
Qed.

(** X17. [CidrToIpv4] of [main.go] accepts the same texts as the one
    of [ipcalc.go] and reads the same host and mask; the network and
    broadcast addresses it caches in the value it returns are the ones the
    Addr/Mask variant computes from that host and mask. *)
Theorem Cached_CidrToIpv4_consistent (s : string) :
  (snd (CachedText.CidrToIpv4 s) = None <-> snd (CidrToIpv4 s) = None) /\
  forall c,
    CachedText.CidrToIpv4 s = (c, None) ->
    CidrToIpv4 s = (mkIpv4 (Cached.Host c) (Cached.Mask c), None) /\
    Cached.Network c = Network (mkIpv4 (Cached.Host c) (Cached.Mask c)) /\
    Cached.Broadcast c = Broadcast (mkIpv4 (Cached.Host c) (Cached.Mask c)).
Proof.
  unfold CachedText.CidrToIpv4, CidrToIpv4.
  set (h0 := nth 0 (Split s "/") EmptyString).
  set (m0 := nth 1 (Split s "/") EmptyString).
  pose proof (stringToHost_of_DottedDecimal h0) as Hh.
  pose proof (DottedDecimalToUint32_in_range h0) as Hr.
  assert (Fields : forall h m,
             U32.in_range h -> U32.in_range m ->
             let c := Cached.setBroadcast
                        (Cached.setNetwork (Cached.mkIpv4 h m 0 0)) in
             Cached.Host c = h /\ Cached.Mask c = m /\
             Cached.Network c = Network (mkIpv4 h m) /\
             Cached.Broadcast c = Broadcast (mkIpv4 h m)).
  { intros h m Rh Rm. cbv zeta.
    pose proof (HostMask_Network_land h m Rh Rm) as N.
    pose proof (HostMask_Broadcast_lor h m Rh Rm) as B.
    unfold Network, Broadcast. cbn [Addr Mask].
    rewrite (Z.land_comm m h), (Z.lor_comm (U32.not m) h).
    repeat split; assumption. }
  destruct (CachedText.stringToHost h0) as [h1 [e1|]] eqn:S1;
    destruct (DottedDecimalToUint32 h0) as [h2 [e2|]] eqn:S2.
  - cbn [snd]. split; [split; discriminate|]. intros c H. discriminate.
  - exfalso. assert (C : (h1, Some e1) = (h2, None))
      by (apply Hh; reflexivity). discriminate.
  - exfalso. assert (C : (h2, Some e2) = (h1, None))
      by (apply Hh; reflexivity). discriminate.
  - assert (E : (h1, @None error) = (h2, None)) by (apply Hh; reflexivity).
    injection E as ->. specialize (Hr h2 eq_refl).
    destruct (Nat.eqb (List.length (Split s "/")) 2).
    + destruct (stringToMask m0) as [m [e|]] eqn:M.
      * cbn [snd]. split; [split; discriminate|]. intros c H. discriminate.
      * apply stringToMask_accepts in M. destruct M as (n & _ & Hn & ->).
        cbn [snd]. split; [split; reflexivity|].
        intros c H. injection H as <-.
        destruct (Fields h2 (prefixMask (32 - n)) Hr
                         (prefixMask_in_range (32 - n) ltac:(lia)))
          as (F1 & F2 & F3 & F4).
        split; [reflexivity|]. split; [exact F3|exact F4].
    + cbn [snd]. split; [split; reflexivity|].
      intros c H. injection H as <-.
      destruct (Fields h2 TwoFiveFive Hr (prefixMask_in_range 0 ltac:(lia)))
        as (F1 & F2 & F3 & F4).
      split; [reflexivity|]. split; [exact F3|exact F4].
Qed.

Lemma Cached_CidrToIpv4_consistent_witness :
  CidrToIpv4 "10.10.20.0/21" = (mkIpv4 168432640 4294965248, None) /\
  168431616 = Network (mkIpv4 168432640 4294965248) /\
  168433663 = Broadcast (mkIpv4 168432640 4294965248).
Proof.
  apply (proj2 (Cached_CidrToIpv4_consistent "10.10.20.0/21")
               (Cached.mkIpv4 168432640 4294965248 168431616 168433663)).
  vm_compute. reflexivity.
Defined.

Lemma maskToStringLoop_one_more (n : nat) :
  forall i m,
    Z.of_nat n + i = 32 ->
    maskToStringLoop (S n) i m = maskToStringLoop n i m.
Proof.
  induction n as [|n IH]; intros i m Hi.
  - assert (i = 32) by lia. subst i. cbn [maskToStringLoop].
    destruct (m =? TwoFiveFive); reflexivity.
  - change (maskToStringLoop (S (S n)) i m)
      with (if m =? TwoFiveFive then Itoa (32 - i)
            else maskToStringLoop (S n) (i + 1) (nextMask m)).
    change (maskToStringLoop (S n) i m)
      with (if m =? TwoFiveFive then Itoa (32 - i)
            else maskToStringLoop n (i + 1) (nextMask m)).
    destruct (m =? TwoFiveFive); [reflexivity|].
    apply IH. lia.
Qed.

Lemma hostToString_addrToString (n : Z) :
  HostMaskText.hostToString n = addrToString n.
Proof. unfold HostMaskText.hostToString, addrToString. reflexivity. Qed.

(** X18. The two [maskToString] loops, up to [i < 32] and up to
    [i <= 32], return the same text for every mask, so the [ToCidr] of the
    Host/Mask variant, which has no contiguity check, renders exactly the
    text of the Addr/Mask [ToCidr] whenever that one succeeds. *)
Theorem ToCidr_variants_agree (i : HostMask.Ipv4) :
  (forall m, HostMaskText.maskToString m = maskToString m) /\
  (forall t, ToCidr (ofHostMask i) = (t, None) -> HostMaskText.ToCidr i = t).
Proof.
  assert (E : forall m, HostMaskText.maskToString m = maskToString m).
  { intros m. exact (maskToStringLoop_one_more 32 0 m eq_refl). }
  split; [exact E|].
  intros t. unfold ToCidr. generalize (IsContiguous (ofHostMask i)).
  intros [|] H.
  - apply (f_equal fst) in H. unfold fst in H. subst t.
    unfold HostMaskText.ToCidr.
    rewrite E, hostToString_addrToString.
    destruct i as [h m]. reflexivity.
  - discriminate.
Qed.

Lemma ToCidr_variants_agree_witness :
  HostMaskText.maskToString 1 = maskToString 1 /\
  HostMaskText.ToCidr (HostMask.mkIpv4 183806472 4294967280) =
  "10.244.170.8/28"%string.
Proof.
  destruct (ToCidr_variants_agree (HostMask.mkIpv4 183806472 4294967280))
    as [E T].
  split; [apply E|]. apply T. reflexivity.
Defined.

Lemma HostMask_Network_eq (lo : HostMask.Ipv4) :
  U32.in_range (HostMask.Host lo) -> U32.in_range (HostMask.Mask lo) ->
  HostMask.Network lo = Network (ofHostMask lo).
Proof.
  intros Hh Hm. destruct lo as [h m]. cbn [HostMask.Host HostMask.Mask] in *.
  rewrite HostMask_Network_land by assumption.
  unfold Network, ofHostMask. cbn [Addr Mask HostMask.Host HostMask.Mask].
  apply Z.land_comm.
Qed.

Lemma HostMask_Broadcast_eq (lo : HostMask.Ipv4) :
  U32.in_range (HostMask.Host lo) -> U32.in_range (HostMask.Mask lo) ->
  HostMask.Broadcast lo = Broadcast (ofHostMask lo).
Proof.
  intros Hh Hm. destruct lo as [h m]. cbn [HostMask.Host HostMask.Mask] in *.
  rewrite HostMask_Broadcast_lor by assumption.
  unfold Broadcast, ofHostMask. cbn [Addr Mask HostMask.Host HostMask.Mask].
  apply Z.lor_comm.
Qed.

Lemma HostMask_candidateLoop_eq (iters : nat) :
  forall bits x lo,
    U32.in_range (HostMask.Mask lo) ->
    ofHostMask (HostMask.candidateLoop iters bits x lo) =
    candidateLoop iters bits x (ofHostMask lo) /\
    U32.in_range (HostMask.Mask (HostMask.candidateLoop iters bits x lo)) /\
    HostMask.Host (HostMask.candidateLoop iters bits x lo) = HostMask.Host lo.
Proof.
  induction iters as [|iters IH]; intros bits x lo Hm.
  - split; [reflexivity|]. split; [assumption|reflexivity].
  - cbn [HostMask.candidateLoop candidateLoop].
    destruct (U32.shr x bits =? 0).
    + split; [reflexivity|]. split; [|reflexivity].
      cbn [HostMask.setMask HostMask.Mask]. unfold U32.sub at 1, U32.wrap.
      apply Z.mod_pos_bound. reflexivity.
    + apply IH. assumption.
Qed.

Lemma HostMask_alignLoop_eq (fuel : nat) :
  forall lo,
    U32.in_range (HostMask.Host lo) -> U32.in_range (HostMask.Mask lo) ->
    match HostMask.alignLoop fuel lo with
    | Some lo' =>
        alignLoop fuel (ofHostMask lo) = Some (ofHostMask lo') /\
        U32.in_range (HostMask.Mask lo') /\
        HostMask.Host lo' = HostMask.Host lo
    | None => alignLoop fuel (ofHostMask lo) = None
    end.
Proof.
  induction fuel as [|fuel IH]; intros lo Hh Hm; [reflexivity|].
  cbn [HostMask.alignLoop alignLoop].
  rewrite (HostMask_Network_eq lo Hh Hm).
  change (Addr (ofHostMask lo)) with (HostMask.Host lo).
  destruct (Network (ofHostMask lo) =? HostMask.Host lo).
  - split; [reflexivity|]. split; [assumption|reflexivity].
  - change (setMask (ofHostMask lo) (nextMask (Mask (ofHostMask lo))))
      with (ofHostMask
              (HostMask.setMask lo
                 (U32.add (U32.shl 1 31) (U32.shr (HostMask.Mask lo) 1)))).
    specialize (IH (HostMask.setMask lo
                      (U32.add (U32.shl 1 31) (U32.shr (HostMask.Mask lo) 1)))
                   Hh (nextMask_in_range _ Hm)).
    destruct (HostMask.alignLoop fuel _) as [lo'|]; [|exact IH].
    destruct IH as (E & R & H').
    split; [assumption|]. split; assumption.
Qed.

Lemma HostMask_Subnet_fuel_eq (lf d : nat) :
  forall start stop,
    U32.in_range start ->
    option_map (fun r => (map ofHostMask (fst r), snd r))
               (HostMask.Subnet_fuel lf d start stop) =
    Subnet_fuel lf d start stop.
Proof.
  induction d as [|d IH]; intros start stop Hs; [reflexivity|].
  cbn [HostMask.Subnet_fuel Subnet_fuel].
  destruct (start =? stop); [reflexivity|].
  destruct (start >? stop); [reflexivity|].
  destruct (HostMask_candidateLoop_eq 33 0 (Z.lxor start stop)
              (HostMask.mkIpv4 start 0)) as (Ec & Rc & Hc).
  { cbn [HostMask.Mask]. u32_range. }
  change (ofHostMask (HostMask.mkIpv4 start 0)) with (mkIpv4 start 0) in Ec.
  rewrite <- Ec.
  cbn [HostMask.Host] in Hc.
  pose proof (HostMask_alignLoop_eq lf _ ltac:(rewrite Hc; exact Hs) Rc) as A.
  destruct (HostMask.alignLoop lf _) as [lo'|]; [|rewrite A; reflexivity].
  destruct A as (Ea & Ra & Ha). rewrite Ea.
  rewrite Hc in Ha.
  rewrite (HostMask_Broadcast_eq lo' ltac:(rewrite Ha; exact Hs) Ra).
  destruct (Broadcast (ofHostMask lo') =? stop); [reflexivity|].
  destruct (Broadcast (ofHostMask lo') >? stop); [reflexivity|].
  rewrite <- (IH (U32.add (Broadcast (ofHostMask lo')) 1) stop)
    by (unfold U32.add, U32.wrap; apply Z.mod_pos_bound; reflexivity).
  destruct (HostMask.Subnet_fuel lf d _ stop) as [[next [err|]]|];
    reflexivity.
Qed.

(** X19. The [Subnet] of the Host/Mask variant, which computes network
    and broadcast addresses by arithmetic, returns on every 32-bit [start]
    the blocks and the error of the Addr/Mask [Subnet]. *)
Theorem HostMask_Subnet_agrees (lf d : nat) (start stop : Z) :
  U32.in_range start ->
  option_map (fun r => (map ofHostMask (fst r), snd r))
             (HostMask.Subnet_fuel lf d start stop) =
  Subnet_fuel lf d start stop.
Proof. apply HostMask_Subnet_fuel_eq. Qed.

Lemma HostMask_Subnet_agrees_witness :
  option_map (fun r => (map ofHostMask (fst r), snd r))
             (HostMask.Subnet_fuel 33 33 1 6) =
  Subnet_fuel 33 33 1 6.
Proof. apply (HostMask_Subnet_agrees 33 33 1 6). u32_range. Defined.

Lemma HostMask_orderPair_eq (n1 n2 : HostMask.Ipv4) :
  U32.in_range (HostMask.Host n1) -> U32.in_range (HostMask.Mask n1) ->
  U32.in_range (HostMask.Host n2) -> U32.in_range (HostMask.Mask n2) ->
  match HostMask.orderPair n1 n2 with
  | inl (a, b) =>
      orderPair (ofHostMask n1) (ofHostMask n2) =
      inl (ofHostMask a, ofHostMask b) /\
      (U32.in_range (HostMask.Host a) /\ U32.in_range (HostMask.Mask a)) /\
      (U32.in_range (HostMask.Host b) /\ U32.in_range (HostMask.Mask b))
  | inr l =>
      orderPair (ofHostMask n1) (ofHostMask n2) = inr (map ofHostMask l)
  end.
Proof.
  intros H1 M1 H2 M2.
  assert (Z0 : U32.in_range 0) by u32_range.
  unfold HostMask.orderPair, orderPair.
  change (Addr (ofHostMask n1)) with (HostMask.Host n1).
  change (Addr (ofHostMask n2)) with (HostMask.Host n2).
  change (Mask (ofHostMask n1)) with (HostMask.Mask n1).
  change (Mask (ofHostMask n2)) with (HostMask.Mask n2).
  change (Ipv4_eqb (ofHostMask n1) (ofHostMask n2))
    with (HostMask.Ipv4_eqb n1 n2).
  destruct (HostMask.Host n1 <? HostMask.Host n2); [tauto|].
  destruct (HostMask.Host n1 >? HostMask.Host n2); [tauto|].
  destruct (HostMask.Mask n1 >? HostMask.Mask n2); [tauto|].
  destruct (HostMask.Mask n1 <? HostMask.Mask n2); [tauto|].
  destruct (HostMask.Ipv4_eqb n1 n2); [reflexivity|].
  cbn [HostMask.Host HostMask.Mask]. tauto.
Qed.

Lemma HostMask_Overlap_fuel_eq (lf d : nat) (n1 n2 : HostMask.Ipv4) :
  U32.in_range (HostMask.Host n1) -> U32.in_range (HostMask.Mask n1) ->
  U32.in_range (HostMask.Host n2) -> U32.in_range (HostMask.Mask n2) ->
  option_map (map ofHostMask) (HostMask.Overlap_fuel lf d n1 n2) =
  Overlap_fuel lf d (ofHostMask n1) (ofHostMask n2).
Proof.
  intros H1 M1 H2 M2.
  pose proof (HostMask_orderPair_eq n1 n2 H1 M1 H2 M2) as O.
  unfold HostMask.Overlap_fuel, Overlap_fuel.
  destruct (HostMask.orderPair n1 n2) as [[a b]|l]; [|rewrite O; reflexivity].
  destruct O as (-> & (Ha & Ma) & (Hb & Mb)).
  rewrite (HostMask_Broadcast_eq a Ha Ma), (HostMask_Broadcast_eq b Hb Mb).
  change (Addr (ofHostMask b)) with (HostMask.Host b).
  destruct ((_ <? HostMask.Host b) || (HostMask.Host b >? _));
    [reflexivity|].
  rewrite <- (HostMask_Subnet_fuel_eq lf d (HostMask.Host b) _ Hb).
  destruct (HostMask.Subnet_fuel lf d (HostMask.Host b) _)
    as [[res [err|]]|]; reflexivity.
Qed.

(** X20. Likewise the [Overlap] of the Host/Mask variant returns, for
    32-bit hosts and masks, the blocks of the Addr/Mask [Overlap]. *)
Theorem HostMask_Overlap_agrees (lf d : nat) (n1 n2 : HostMask.Ipv4) :
  U32.in_range (HostMask.Host n1) -> U32.in_range (HostMask.Mask n1) ->
  U32.in_range (HostMask.Host n2) -> U32.in_range (HostMask.Mask n2) ->
  option_map (map ofHostMask) (HostMask.Overlap_fuel lf d n1 n2) =
  Overlap_fuel lf d (ofHostMask n1) (ofHostMask n2).
Proof. apply HostMask_Overlap_fuel_eq. Qed.

Lemma HostMask_Overlap_agrees_witness :
  option_map (map ofHostMask)
             (HostMask.Overlap_fuel 33 33
                (HostMask.mkIpv4 168432640 4294965248)
                (HostMask.mkIpv4 168432640 4294967040)) =
  Overlap_fuel 33 33 (mkIpv4 168432640 4294965248)
               (mkIpv4 168432640 4294967040).
Proof.
  apply (HostMask_Overlap_agrees 33 33
           (HostMask.mkIpv4 168432640 4294965248)
           (HostMask.mkIpv4 168432640 4294967040));
    unfold U32.in_range, U32.modulus;
    cbn [HostMask.Host HostMask.Mask]; lia.
Defined.

(** ** [Subnet] of [main.go] *)

Lemma Cached_candidateLoop_eq (iters : nat) :
  forall bits x lo,
    U32.in_range (Cached.Mask lo) ->
    ofCached (CachedOps.candidateLoop iters bits x lo) =
    candidateLoop iters bits x (ofCached lo) /\
    U32.in_range (Cached.Mask (CachedOps.candidateLoop iters bits x lo)) /\
    Cached.Host (CachedOps.candidateLoop iters bits x lo) = Cached.Host lo.
Proof.
  induction iters as [|iters IH]; intros bits x lo Hm.
  - split; [reflexivity|]. split; [assumption|reflexivity].
  - cbn [CachedOps.candidateLoop candidateLoop].
    destruct (U32.shr x bits =? 0).
    + split; [reflexivity|]. split; [|reflexivity].
      cbn [CachedOps.setMask Cached.Mask]. unfold U32.sub at 1, U32.wrap.
      apply Z.mod_pos_bound. reflexivity.
    + apply IH. assumption.
Qed.

Lemma Cached_setNetwork_value (c : Cached.Ipv4) :
  U32.in_range (Cached.Host c) -> U32.in_range (Cached.Mask c) ->
  Cached.Network (Cached.setNetwork c) = Network (ofCached c).
Proof.
  intros Hh Hm. destruct c as [h m n b]. cbn [Cached.Host Cached.Mask] in *.
  pose proof (HostMask_Network_land h m Hh Hm) as N.
  unfold Network, ofCached. cbn [Addr Mask Cached.Host Cached.Mask].
  rewrite (Z.land_comm m h). exact N.
Qed.

Lemma Cached_alignLoop_eq (fuel : nat) :
  forall lo,
    U32.in_range (Cached.Host lo) -> U32.in_range (Cached.Mask lo) ->
    match CachedOps.alignLoop fuel lo with
    | Some lo' =>
        alignLoop fuel (ofCached lo) = Some (ofCached lo') /\
        U32.in_range (Cached.Mask lo') /\
        Cached.Host lo' = Cached.Host lo /\
        Cached.Network lo' = Network (ofCached lo')
    | None => alignLoop fuel (ofCached lo) = None
    end.
Proof.
  induction fuel as [|fuel IH]; intros lo Hh Hm; [reflexivity|].
  cbn [CachedOps.alignLoop alignLoop].
  pose proof (Cached_setNetwork_value lo Hh Hm) as N.
  set (lo1 := Cached.setNetwork lo) in *.
  assert (E1 : ofCached lo1 = ofCached lo) by reflexivity.
  change (Cached.Host lo1) with (Cached.Host lo).
  change (Addr (ofCached lo)) with (Cached.Host lo).
  rewrite N.
  destruct (Network (ofCached lo) =? Cached.Host lo).
  - split; [rewrite E1; reflexivity|]. split; [exact Hm|].
    split; [reflexivity|]. rewrite E1. exact N.
  - change (setMask (ofCached lo) (nextMask (Mask (ofCached lo))))
      with (ofCached
              (CachedOps.setMask lo1
                 (U32.add (U32.shl 1 31) (U32.shr (Cached.Mask lo1) 1)))).
    specialize (IH (CachedOps.setMask lo1
                      (U32.add (U32.shl 1 31) (U32.shr (Cached.Mask lo1) 1)))
                   Hh (nextMask_in_range _ Hm)).
    destruct (CachedOps.alignLoop fuel _) as [lo'|]; [|exact IH].
    destruct IH as (E & R & H' & N').
    split; [assumption|]. split; [assumption|]. split; assumption.
Qed.

Lemma Cached_setBroadcast_value (c : Cached.Ipv4) :
  U32.in_range (Cached.Host c) -> U32.in_range (Cached.Mask c) ->
  Cached.Network c = Network (ofCached c) ->
  cacheConsistent (Cached.setBroadcast c) /\
  ofCached (Cached.setBroadcast c) = ofCached c.
Proof.
  intros Hh Hm N. destruct c as [h m n b].
  cbn [Cached.Host Cached.Mask Cached.Network] in *.
  pose proof (HostMask_Network_land h m Hh Hm) as N'.
  pose proof (HostMask_Broadcast_lor h m Hh Hm) as B.
  unfold HostMask.Broadcast in B. rewrite N' in B.
  cbn [HostMask.Mask] in B.
  unfold cacheConsistent, ofCached, Cached.setBroadcast, Network, Broadcast
    in *.
  cbn [Addr Mask Cached.Host Cached.Mask Cached.Network Cached.Broadcast] in *.
  split; [|reflexivity]. split; [exact N|].
  rewrite N, (Z.land_comm m h), (Z.lor_comm (U32.not m) h). exact B.
Qed.

Lemma Cached_Subnet_fuel_eq (lf d : nat) :
  forall start stop,
    U32.in_range start ->
    match CachedOps.Subnet_fuel lf d start stop with
    | Some (out, (res, err)) =>
        Subnet_fuel lf d start stop = Some (map ofCached res, err) /\
        Forall cacheConsistent res /\
        (err = None -> List.length out = List.length res) /\
        hd_error out = Some (CachedOps.logLine start stop)
    | None => Subnet_fuel lf d start stop = None
    end.
Proof.
  induction d as [|d IH]; intros start stop Hs; [reflexivity|].
  cbn [CachedOps.Subnet_fuel Subnet_fuel].
  destruct (start =? stop).
  { split; [reflexivity|]. split; [|split; reflexivity].
    constructor; [|constructor].
    unfold cacheConsistent, ofCached.
    cbn [Cached.Host Cached.Mask Cached.Network Cached.Broadcast].
    rewrite Network_all_ones, Broadcast_single by assumption.
    split; reflexivity. }
  destruct (start >? stop).
  { split; [reflexivity|]. split; [constructor|].
    split; [discriminate|reflexivity]. }
  destruct (Cached_candidateLoop_eq 33 0 (Z.lxor start stop)
              (Cached.mkIpv4 start 0 0 0)) as (Ec & Rc & Hc).
  { cbn [Cached.Mask]. u32_range. }
  change (ofCached (Cached.mkIpv4 start 0 0 0)) with (mkIpv4 start 0) in Ec.
  rewrite <- Ec. cbn [Cached.Host] in Hc.
  pose proof (Cached_alignLoop_eq lf _ ltac:(rewrite Hc; exact Hs) Rc) as A.
  destruct (CachedOps.alignLoop lf _) as [lo'|]; [|rewrite A; reflexivity].
  destruct A as (Ea & Ra & Ha & Na). rewrite Ea. rewrite Hc in Ha.
  destruct (Cached_setBroadcast_value lo' ltac:(rewrite Ha; exact Hs) Ra Na)
    as [Cons Eproj].
  pose proof Cons as [_ CB]. rewrite Eproj in CB. rewrite CB.
  destruct (Broadcast (ofCached lo') =? stop).
  { split; [cbn [map]; rewrite Eproj; reflexivity|].
    split; [constructor; [exact Cons|constructor]|]. split; reflexivity. }
  destruct (Broadcast (ofCached lo') >? stop).
  { split; [cbn [map]; rewrite Eproj; reflexivity|].
    split; [constructor; [exact Cons|constructor]|].
    split; [discriminate|reflexivity]. }
  specialize (IH (U32.add (Broadcast (ofCached lo')) 1) stop).
  assert (Hn : U32.in_range (U32.add (Broadcast (ofCached lo')) 1))
    by (unfold U32.add, U32.wrap; apply Z.mod_pos_bound; reflexivity).
  specialize (IH Hn).
  destruct (CachedOps.Subnet_fuel lf d _ stop) as [[out' [next [err|]]]|].
  - destruct IH as (E & F & _ & _). rewrite E.
    split; [cbn [map]; rewrite Eproj; reflexivity|].
    split; [constructor; [exact Cons|constructor]|].
    split; [discriminate|reflexivity].
  - destruct IH as (E & F & L & _). rewrite E.
    split; [cbn [map app]; rewrite Eproj; reflexivity|].
    split; [constructor; assumption|].
    split; [|reflexivity].
    intros _. cbn [app List.length]. f_equal. apply L. reflexivity.
  - rewrite IH. reflexivity.
Qed.

(** X21. The [Subnet] of [main.go], which keeps network and broadcast
    address in fields of each value, returns on every 32-bit [start] the
    blocks and the error of the Addr/Mask [Subnet]; in every block it
    returns the cached fields are those that [Network()] and [Broadcast()]
    compute; it first prints the line for [start] and [stop], and when it
    succeeds it has printed one line for each block returned. *)
Theorem Cached_Subnet_agrees (lf d : nat) (start stop : Z) :
  U32.in_range start ->
  match CachedOps.Subnet_fuel lf d start stop with
  | Some (out, (res, err)) =>
      Subnet_fuel lf d start stop = Some (map ofCached res, err) /\
      Forall cacheConsistent res /\
      (err = None -> List.length out = List.length res) /\
      hd_error out = Some (CachedOps.logLine start stop)
  | None => Subnet_fuel lf d start stop = None
  end.
Proof. apply Cached_Subnet_fuel_eq. Qed.

Lemma Cached_Subnet_agrees_witness :
  match CachedOps.Subnet_fuel 33 33 1 3 with
  | Some (out, (res, err)) =>
      Subnet_fuel 33 33 1 3 = Some (map ofCached res, err) /\
      Forall cacheConsistent res /\
      (err = None -> List.length out = List.length res) /\
      hd_error out = Some (CachedOps.logLine 1 3)
  | None => Subnet_fuel 33 33 1 3 = None
  end.
Proof. apply (Cached_Subnet_agrees 33 33 1 3). u32_range. Defined.
